(** * Red Specter ScriptMap: the extraction and classification pipeline

    A shallow embedding of [redspecter_scriptmap.py] and the properties of its
    core: line extraction, URL normalisation, first-party determination,
    category classification and the orchestrating loop.

    Text model.  A Python [str] is modelled by a Rocq [string] whose
    characters are read as the code points U+0000 .. U+00FF.  On that range
    [str.lower], [str.strip] and the case-insensitive regular expression act
    character by character, and the tables below are the ones of CPython.
    Strings with code points above U+00FF are outside the model. *)

From Stdlib Require Import Strings.String Strings.Ascii.
From Stdlib Require Import Lists.List Bool.Bool.
From Stdlib Require Import Arith.Arith NArith.NArith micromega.Lia.
From Stdlib Require Import Numbers.DecimalString.
From Stdlib Require Import Sorting.Permutation Sorting.Sorted.
Import ListNotations.

Open Scope list_scope.
Open Scope string_scope.
Open Scope bool_scope.

#[global] Arguments Ascii.eqb : simpl never.
#[global] Arguments N.leb : simpl never.
#[global] Arguments N.eqb : simpl never.

(** ** Python string primitives *)

Module PyStr.

(** The double quote character, U+0022. *)
Definition dquote : ascii :=
  Ascii false true false false false true false false.

Definition code (c : ascii) : N := N_of_ascii c.

Definition in_range (lo hi : N) (c : ascii) : bool :=
  (lo <=? code c)%N && (code c <=? hi)%N.

(** [str.isspace] on one character: TAB..CR, FS..US, SPACE, NEL, NBSP. *)
Definition isspace (c : ascii) : bool :=
  in_range 9 13 c || in_range 28 32 c
  || (code c =? 133)%N || (code c =? 160)%N.

(** [str.lower] on one character: A-Z and the Latin-1 capitals
    U+00C0..U+00DE except the multiplication sign U+00D7. *)
Definition lower_char (c : ascii) : ascii :=
  if in_range 65 90 c || in_range 192 214 c || in_range 216 222 c
  then ascii_of_N (code c + 32)
  else c.

Fixpoint lower (s : string) : string :=
  match s with
  | EmptyString => EmptyString
  | String c s' => String (lower_char c) (lower s')
  end.

(** Truth value of a string: [not s] is [is_empty s]. *)
Definition is_empty (s : string) : bool :=
  match s with EmptyString => true | String _ _ => false end.

(** [c in chars] for a single character [c]. *)
Fixpoint in_chars (chars : string) (c : ascii) : bool :=
  match chars with
  | EmptyString => false
  | String d chars' => (c =? d)%char || in_chars chars' c
  end.

(** Removal of the leading characters satisfying [p]. *)
Fixpoint lstrip_by (p : ascii -> bool) (s : string) : string :=
  match s with
  | EmptyString => EmptyString
  | String c s' => if p c then lstrip_by p s' else s
  end.

(** Removal of the trailing characters satisfying [p]. *)
Fixpoint rstrip_by (p : ascii -> bool) (s : string) : string :=
  match s with
  | EmptyString => EmptyString
  | String c s' =>
      let r := rstrip_by p s' in
      if is_empty r && p c then EmptyString else String c r
  end.

(** [s.strip()] *)
Definition strip (s : string) : string :=
  rstrip_by isspace (lstrip_by isspace s).

(** [s.lstrip(chars)] and [s.rstrip(chars)]: [chars] is a set of characters. *)
Definition lstrip_chars (chars s : string) : string :=
  lstrip_by (in_chars chars) s.

Definition rstrip_chars (chars s : string) : string :=
  rstrip_by (in_chars chars) s.

(** [s.startswith(pre)] *)
Fixpoint startswith (pre s : string) : bool :=
  match pre, s with
  | EmptyString, _ => true
  | String _ _, EmptyString => false
  | String a pre', String b s' => (a =? b)%char && startswith pre' s'
  end.

(** [s.startswith((p1, ..., pn))] *)
Definition startswith_any (pres : list string) (s : string) : bool :=
  existsb (fun pre => startswith pre s) pres.

(** [sub in s] *)
Fixpoint contains (sub s : string) : bool :=
  startswith sub s
  || match s with
     | EmptyString => false
     | String _ s' => contains sub s'
     end.

(** The slices [s[:n]] and [s[n:]] for [n >= 0]. *)
Fixpoint take (n : nat) (s : string) : string :=
  match n, s with
  | S n', String c s' => String c (take n' s')
  | _, _ => EmptyString
  end.

Fixpoint drop (n : nat) (s : string) : string :=
  match n, s with
  | S n', String _ s' => drop n' s'
  | _, _ => s
  end.

(** [s.endswith(suf)]: compare the last [len(suf)] characters. *)
Definition endswith (suf s : string) : bool :=
  (String.length suf <=? String.length s)%nat
  && (drop (String.length s - String.length suf) s =? suf).

(** [s.find(c)] for a single character: [None] stands for [-1]. *)
Fixpoint find_char (c : ascii) (s : string) : option nat :=
  match s with
  | EmptyString => None
  | String d s' =>
      if (d =? c)%char then Some O
      else option_map S (find_char c s')
  end.

(** [s.rfind(c)] for a single character. *)
Fixpoint rfind_char (c : ascii) (s : string) : option nat :=
  match s with
  | EmptyString => None
  | String d s' =>
      match rfind_char c s' with
      | Some i => Some (S i)
      | None => if (d =? c)%char then Some O else None
      end
  end.

(** [s.find(c, start)] *)
Definition find_char_from (c : ascii) (start : nat) (s : string)
  : option nat :=
  option_map (Nat.add start) (find_char c (drop start s)).

(** [s.replace(c, "")] for a single character. *)
Fixpoint remove_char (c : ascii) (s : string) : string :=
  match s with
  | EmptyString => EmptyString
  | String d s' =>
      if (d =? c)%char then remove_char c s' else String d (remove_char c s')
  end.

(** [s.isascii()] *)
Definition isascii_char (c : ascii) : bool := (code c <? 128)%N.

Fixpoint isascii (s : string) : bool :=
  match s with
  | EmptyString => true
  | String c s' => isascii_char c && isascii s'
  end.

(** [c.isascii() and c.isalpha()] *)
Definition ascii_alpha (c : ascii) : bool :=
  in_range 65 90 c || in_range 97 122 c.

Definition ascii_digit (c : ascii) : bool := in_range 48 57 c.

(** [s.split(c, 1)] when [c in s]: the text before and after the first [c]. *)
Definition split_once (c : ascii) (s : string) : string * string :=
  match find_char c s with
  | Some i => (take i s, drop (S i) s)
  | None => (s, EmptyString)
  end.

(** [s[:-1]]: all but the last character. *)
Definition drop_last (s : string) : string := take (String.length s - 1) s.

End PyStr.
Import PyStr.

(** ** Exceptions

    The only exception the core can meet is the [ValueError] raised by
    [urllib.parse]; the program has no handler, so it propagates. *)

Inductive exn : Type := ValueError.

Inductive result (A : Type) : Type :=
| Ok (a : A)
| Raise (e : exn).
Arguments Ok {A} a.
Arguments Raise {A} e.

Definition bind {A B : Type} (r : result A) (k : A -> result B) : result B :=
  match r with
  | Ok a => k a
  | Raise e => Raise e
  end.

Notation "x <- r ;; k" := (bind r (fun x => k))
  (at level 61, r at next level, right associativity).
Notation "' p <- r ;; k" := (bind r (fun x => let 'p := x in k))
  (at level 61, p pattern, r at next level, right associativity).

(** ** The regular expression [SCRIPT_SRC_RE]

    The pattern, compiled with [re.IGNORECASE], is the literal [src=], one
    quote character (double or single), a group of one or more characters
    that are not quotes, and one quote character.  After the literal [src=]
    (letters in either case) and an opening quote, the group is
    the longest run of characters that are not quotes; it must be non-empty
    and be followed by a quote.  Giving back characters of the run never helps,
    since the character after a shorter run is not a quote, so the greedy
    match is the only one at a given position. *)

Module Re.

Definition is_quote (c : ascii) : bool :=
  (c =? dquote)%char || (c =? "'")%char.

(** A pattern letter under [re.IGNORECASE]. *)
Definition ci (p c : ascii) : bool := (lower_char c =? p)%char.

(** The longest run of non-quote characters and what follows it. *)
Fixpoint span_nonquote (s : string) : string * string :=
  match s with
  | EmptyString => (EmptyString, EmptyString)
  | String c s' =>
      if is_quote c then (EmptyString, s)
      else let (g, rest) := span_nonquote s' in (String c g, rest)
  end.

(** A match of the expression starting at the first character of [s]:
    the text of group 1. *)
Definition match_here (s : string) : option string :=
  match s with
  | String a (String b (String c (String e (String q rest)))) =>
      if ci "s" a && ci "r" b && ci "c" c && (e =? "=")%char && is_quote q
      then
        match span_nonquote rest with
        | (String g0 g, String _ _) => Some (String g0 g)
        | _ => None
        end
      else None
  | _ => None
  end.

(** [SCRIPT_SRC_RE.search(s)]: the leftmost match; the result is
    [m.group(1)], [None] when there is no match. *)
Fixpoint search (s : string) : option string :=
  match match_here s with
  | Some g => Some g
  | None =>
      match s with
      | EmptyString => None
      | String _ s' => search s'
      end
  end.

End Re.

(** ** Data model *)

(** The free-text annotations of [ScriptEntry.notes].  The program only ever
    appends these four literals. *)
Inductive note : Type :=
| NoteWidget      (* "Widget-style script (embedded component)" *)
| NoteTracking    (* "Tracking-related identifier in URL" *)
| NoteBundle      (* "Large JS bundle ... may include multiple libraries" *)
| NoteNoHost.     (* "No host component detected" *)

(** The text of a note; the punctuation between "bundle" and "may" in the
    third literal lies outside U+0000..U+00FF and is given as the bytes of
    the source file. *)
Definition note_text (n : note) : string :=
  match n with
  | NoteWidget => "Widget-style script (embedded component)"
  | NoteTracking => "Tracking-related identifier in URL"
  | NoteBundle =>
      "Large JS bundle "
      ++ String (ascii_of_N 195) (String (ascii_of_N 162)
          (String (ascii_of_N 226) (String (ascii_of_N 130)
          (String (ascii_of_N 172) (String (ascii_of_N 226)
          (String (ascii_of_N 128) (String (ascii_of_N 156) EmptyString)))))))
      ++ " may include multiple libraries"
  | NoteNoHost => "No host component detected"
  end.

Record ScriptEntry : Type := mkScriptEntry {
  raw : string;
  url : string;
  scheme : string;
  host : string;
  path : string;
  category : string;
  subcategory : string;
  first_party : bool;
  notes : list note
}.

(** [CATEGORY_RULES]: a dict literal, iterated in insertion order. *)
Definition CATEGORY_RULES : list (string * list string) :=
  [ ("analytics",
      [ "google-analytics.com"; "analytics.google.com"; "googletagmanager.com";
        "gtag/js"; "segment.io"; "mixpanel.com"; "matomo"; "plausible.io";
        "snowplow" ]);
    ("ads",
      [ "doubleclick.net"; "googlesyndication.com"; "adservice.google.com";
        "adsystem.com"; "adnxs.com"; "taboola"; "outbrain" ]);
    ("cdn/library",
      [ "cdn."; "cdnjs"; "jsdelivr"; "cloudflare.com"; "unpkg.com"; "static.";
        "ajax.googleapis.com"; "code.jquery.com"; "bootstrap" ]);
    ("payment",
      [ "js.stripe.com"; "stripe.com"; "paypalobjects.com";
        "braintreepayments.com"; "checkout." ]);
    ("social",
      [ "connect.facebook.net"; "facebook.com"; "platform.twitter.com";
        "twitter.com/widgets"; "linkedin.com"; "snap." ]);
    ("monitoring",
      [ "sentry.io"; "bugsnag"; "datadoghq.com"; "newrelic"; "rollbar";
        "logrocket" ]);
    ("maps",
      [ "maps.googleapis.com"; "mapbox.com"; "leaflet"; "openstreetmap" ]) ]%list.

(** ** Line extractor *)

Definition extract_url_from_line (line : string) : option string :=
  let line := strip line in
  if is_empty line then None
  else
    match
      (if contains "<script" (lower line) then Re.search line else None)
    with
    | Some g => Some (strip g)
    | None =>
        if startswith_any ["http://"; "https://"; "//"]%list line
        then Some line
        else None
    end.

(** ** The URL parser of the standard library

    [urlparse] and the functions it calls, after [urllib/parse.py] of
    CPython 3.11, for [str] arguments with the default [scheme] and
    [allow_fragments].  Two parts of the library are taken as parameters:
    [ipaddress.ip_address], which validates a bracketed host, and the
    NFKC normalisation test of [_checknetloc]. *)

Module Urllib.

Inductive ip_version : Type := IPv4 | IPv6.

Record ParseResult : Type := mkParseResult {
  scheme : string;
  netloc : string;
  path : string;
  params : string;
  query : string;
  fragment : string
}.

Definition uses_params : list string :=
  [ ""; "ftp"; "hdl"; "prospero"; "http"; "imap"; "https"; "shttp"; "rtsp";
    "rtspu"; "sip"; "sips"; "mms"; "sftp"; "tel" ]%list.

(** [c in scheme_chars] *)
Definition scheme_char (c : ascii) : bool :=
  ascii_alpha c || ascii_digit c || in_chars "+-." c.

Fixpoint all_scheme_chars (s : string) : bool :=
  match s with
  | EmptyString => true
  | String c s' => scheme_char c && all_scheme_chars s'
  end.

(** [c in _WHATWG_C0_CONTROL_OR_SPACE]: U+0000 .. U+0020. *)
Definition c0_control_or_space (c : ascii) : bool := (code c <=? 32)%N.

Definition TAB : ascii := ascii_of_N 9.
Definition LF : ascii := ascii_of_N 10.
Definition CR : ascii := ascii_of_N 13.

(** [s.partition(c)]: the text before and after the first [c]; when [c] is
    absent, all of [s] and the empty string. *)
Definition partition (c : ascii) (s : string) : string * string :=
  split_once c s.

(** [s.rpartition(c)[2]]: the text after the last [c], all of [s] when [c]
    is absent. *)
Definition rpartition_tail (c : ascii) (s : string) : string :=
  match rfind_char c s with
  | Some i => drop (S i) s
  | None => s
  end.

Definition _splitnetloc (url : string) (start : nat) : string * string :=
  let step (delim : nat) (c : ascii) :=
    match find_char_from c start url with
    | Some wdelim => Nat.min delim wdelim
    | None => delim
    end in
  let delim :=
    fold_left step ["/"; "?"; "#"]%char%list (String.length url) in
  (take (delim - start) (drop start url), drop delim url).

Definition _splitparams (url : string) : string * string :=
  if contains "/" url then
    let start :=
      match rfind_char "/" url with
      | Some r => r
      | None => String.length url - 1
      end in
    match find_char_from ";" start url with
    | None => (url, EmptyString)
    | Some i => (take i url, drop (S i) url)
    end
  else
    match find_char ";" url with
    | Some i => (take i url, drop (S i) url)
    | None => (drop_last url, url)
    end.

Definition is_hex (c : ascii) : bool :=
  ascii_digit c || in_range 97 102 c || in_range 65 70 c.

(** [re.match] of the IPvFuture expression: the letter v, one or more
    hexadecimal digits, a dot, and one or more characters other than the
    line feed up to the end of the text. *)
Definition ipvfuture_match (hostname : string) : bool :=
  match hostname with
  | String "v" (String h rest) =>
      is_hex h
      && match lstrip_by is_hex rest with
         | String "." (String t tail) =>
             negb (contains (String LF EmptyString) (String t tail))
         | _ => false
         end
  | _ => false
  end.

Section Parse.

(** [ipaddress.ip_address(hostname)]: the kind of address, [None] when
    it raises [ValueError]. *)
Variable ip_address : string -> option ip_version.

(** For a non-ASCII [n]: the NFKC form of [n] differs from [n] and holds
    one of the characters [/?#@:]. *)
Variable nfkc_rejects : string -> bool.

Definition _checknetloc (netloc : string) : result unit :=
  if is_empty netloc || isascii netloc then Ok tt
  else
    let n := remove_char "@" netloc in
    let n := remove_char ":" n in
    let n := remove_char "#" n in
    let n := remove_char "?" n in
    if nfkc_rejects n then Raise ValueError else Ok tt.

Definition _check_bracketed_host (hostname : string) : result unit :=
  if startswith "v" hostname then
    if ipvfuture_match hostname then Ok tt else Raise ValueError
  else
    match ip_address hostname with
    | None => Raise ValueError
    | Some IPv4 => Raise ValueError
    | Some IPv6 => Ok tt
    end.

Definition _check_bracketed_netloc (netloc : string) : result unit :=
  let hostname_and_port := rpartition_tail "@" netloc in
  if contains "[" hostname_and_port then
    let (before_bracket, bracketed) := partition "[" hostname_and_port in
    if negb (is_empty before_bracket) then Raise ValueError
    else
      let (hostname, port) := partition "]" bracketed in
      if negb (is_empty port) && negb (startswith ":" port)
      then Raise ValueError
      else _check_bracketed_host hostname
  else
    let (hostname, port) := partition ":" hostname_and_port in
    _check_bracketed_host hostname.

(** [urlsplit(url)]: scheme, netloc, path, query, fragment. *)
Definition urlsplit (url : string)
  : result (string * string * string * string * string) :=
  let url := lstrip_by c0_control_or_space url in
  let url := remove_char TAB url in
  let url := remove_char CR url in
  let url := remove_char LF url in
  let '(scheme, url) :=
    match find_char ":" url, url with
    | Some i, String c0 _ =>
        if (0 <? i)%nat && ascii_alpha c0 && all_scheme_chars (take i url)
        then (lower (take i url), drop (S i) url)
        else (EmptyString, url)
    | _, _ => (EmptyString, url)
    end in
  '(netloc, url) <-
    (if take 2 url =? "//" then
       let (netloc, url) := _splitnetloc url 2 in
       if (contains "[" netloc && negb (contains "]" netloc))
          || (contains "]" netloc && negb (contains "[" netloc))
       then Raise ValueError
       else
         _ <- (if contains "[" netloc && contains "]" netloc
               then _check_bracketed_netloc netloc
               else Ok tt) ;;
         Ok (netloc, url)
     else Ok (EmptyString, url)) ;;
  let '(url, fragment) :=
    if contains "#" url then split_once "#" url else (url, EmptyString) in
  let '(url, query) :=
    if contains "?" url then split_once "?" url else (url, EmptyString) in
  _ <- _checknetloc netloc ;;
  Ok (scheme, netloc, url, query, fragment).

Definition urlparse (url : string) : result ParseResult :=
  '(scheme, netloc, url, query, fragment) <- urlsplit url ;;
  let '(url, params) :=
    if existsb (String.eqb scheme) uses_params && contains ";" url
    then _splitparams url
    else (url, EmptyString) in
  Ok (mkParseResult scheme netloc url params query fragment).

End Parse.

End Urllib.

(** ** Party classifier *)

Definition is_first_party (host primary_domain : string) : bool :=
  if is_empty host || is_empty primary_domain then false
  else
    let primary_domain := lstrip_chars "." (lower primary_domain) in
    let host := lower host in
    (host =? primary_domain) || endswith ("." ++ primary_domain) host.

(** ** Category classifier *)

(** The inner loop of [classify_script]: the first pattern of the list that
    occurs in [combined]. *)
Fixpoint first_pattern (combined : string) (patterns : list string)
  : option string :=
  match patterns with
  | [] => None
  | pattern :: rest =>
      if contains (lower pattern) combined then Some pattern
      else first_pattern combined rest
  end%list.

(** The outer loop: the first category, in table order, one of whose
    patterns occurs. *)
Fixpoint first_rule (combined : string) (rules : list (string * list string))
  : option (string * string) :=
  match rules with
  | [] => None
  | (cat, patterns) :: rest =>
      match first_pattern combined patterns with
      | Some pattern => Some (cat, pattern)
      | None => first_rule combined rest
      end
  end%list.

Definition classify_script (host path : string)
  : string * string * list note :=
  let host := lower host in
  let path := lower path in
  let combined := host ++ path in
  match first_rule combined CATEGORY_RULES with
  | Some (cat, pattern) => (cat, pattern, [])
  | None =>
      let notes : list note := [] in
      let notes :=
        if contains "widget" combined
        then (notes ++ [NoteWidget])%list else notes in
      let notes :=
        if contains "tracker" combined || contains "track" combined
        then (notes ++ [NoteTracking])%list else notes in
      let notes :=
        if contains "bundle" combined || contains "vendor" combined
        then (notes ++ [NoteBundle])%list else notes in
      ("generic", "", notes)
  end.

(** ** Output base name computed by [main] *)

Definition output_base (output_prefix : string) : string :=
  rstrip_chars ".md" output_prefix.

Definition summary_path (output_prefix : string) : string :=
  output_base output_prefix ++ "_summary.md".

Definition inventory_path (output_prefix : string) : string :=
  output_base output_prefix ++ "_inventory.md".

(** ** URL normaliser and pipeline orchestrator *)

(** [read_input_lines]: each line the file iterator yields, without its
    trailing line feeds. *)
Definition read_input_lines (file_lines : list string) : list string :=
  map (rstrip_chars (String Urllib.LF EmptyString)) file_lines.

Section Pipeline.

Variable ip_address : string -> option Urllib.ip_version.
Variable nfkc_rejects : string -> bool.

Definition normalize_url (url : string)
  : result (string * string * string) :=
  let url := if startswith "//" url then "https:" ++ url else url in
  parsed <- Urllib.urlparse ip_address nfkc_rejects url ;;
  let scheme := lower (Urllib.scheme parsed) in
  let host :=
    lower (if is_empty (Urllib.netloc parsed) then EmptyString
           else Urllib.netloc parsed) in
  let path :=
    if is_empty (Urllib.path parsed) then "/" else Urllib.path parsed in
  Ok (scheme, host, path).

(** The lines the loop of [process_scripts] passes over with [continue]
    before extraction: blank lines and comment markers. *)
Definition is_skipped (raw : string) : bool :=
  is_empty raw || startswith_any ["#"; "//"; "<!--"]%list raw.

(** The body of the [for] loop over the lines still to read, with the
    accumulator [entries]. *)
Fixpoint process_loop (primary_domain : string) (lines : list string)
  (entries : list ScriptEntry) : result (list ScriptEntry) :=
  match lines with
  | [] => Ok entries
  | line :: rest =>
      let raw := strip line in
      if is_skipped raw then process_loop primary_domain rest entries
      else
        match extract_url_from_line raw with
        | None => process_loop primary_domain rest entries
        | Some url =>
            if is_empty url then process_loop primary_domain rest entries
            else
              '(scheme, host, path) <- normalize_url url ;;
              let '(category, subcategory, notes) :=
                classify_script host path in
              let fp := is_first_party host primary_domain in
              let notes :=
                if is_empty host then (notes ++ [NoteNoHost])%list
                else notes in
              let entry :=
                mkScriptEntry raw url scheme host path category subcategory
                  fp notes in
              process_loop primary_domain rest (entries ++ [entry])%list
        end
  end%list.

(** [process_scripts], on the lines of the input file. *)
Definition process_scripts (file_lines : list string)
  (primary_domain : string) : result (list ScriptEntry) :=
  process_loop primary_domain (read_input_lines file_lines) [].

End Pipeline.

(** A library that accepts every bracketed host and every non-ASCII
    netloc: interpreters older than the bracket validation behave so. *)
Definition ip_address_lenient (_ : string) : option Urllib.ip_version :=
  Some Urllib.IPv6.

Definition nfkc_never_rejects (_ : string) : bool := false.

(** [Counter] of the report renderer, restricted to what the summary reads:
    the number of occurrences of each key, keys in order of first insertion. *)
Fixpoint counter_add (key : string) (counts : list (string * nat))
  : list (string * nat) :=
  match counts with
  | [] => [(key, 1)]
  | (k, n) :: rest =>
      if (k =? key) then (k, S n) :: rest
      else (k, n) :: counter_add key rest
  end%list.

Definition Counter (keys : list string) : list (string * nat) :=
  fold_left (fun counts key => counter_add key counts) keys []%list.

(** [counts[key]]: a missing key counts zero. *)
Fixpoint counter_get (counts : list (string * nat)) (key : string) : nat :=
  match counts with
  | [] => 0
  | (k, n) :: rest => if (k =? key) then n else counter_get rest key
  end%list.

(** [cat_counts] and [total] of [generate_markdown_summary]. *)
Definition cat_counts (entries : list ScriptEntry) : list (string * nat) :=
  Counter (map category entries).

Definition total (entries : list ScriptEntry) : nat := List.length entries.

(** ** Report renderer *)

(** [ScriptEntry.domain_label] *)
Definition domain_label (e : ScriptEntry) : string :=
  if is_empty (host e) then "(no host)" else host e.

(** [str(n)] for a length or a count: the decimal numeral. *)
Definition str_of_nat (n : nat) : string :=
  NilEmpty.string_of_uint (Nat.to_uint n).

(** [sep.join(parts)] *)
Definition join (sep : string) (parts : list string) : string :=
  String.concat sep parts.

(** [s.replace(c, rep)] for a single character [c]. *)
Fixpoint replace_char (c : ascii) (rep : string) (s : string) : string :=
  match s with
  | EmptyString => EmptyString
  | String d s' =>
      if (d =? c)%char then rep ++ replace_char c rep s'
      else String d (replace_char c rep s')
  end.

(** The pipe escaping of the inventory table: a backslash is put before
    every pipe. *)
Definition escape_pipes (s : string) : string := replace_char "|" "\|" s.

(** The order of [sorted(items, key=lambda x: (-x[1], x[0]))]: the larger
    count first, and among equal counts the smaller key, in code point
    order. *)
Definition key_ltb (a b : string * nat) : bool :=
  (snd b <? snd a)%nat
  || ((snd a =? snd b)%nat && String.ltb (fst a) (fst b)).

(** [sorted] is stable: an item goes after the items that are not greater. *)
Fixpoint insert_item (x : string * nat) (l : list (string * nat))
  : list (string * nat) :=
  match l with
  | [] => [x]
  | y :: l' => if key_ltb x y then x :: l else y :: insert_item x l'
  end%list.

Definition sorted_items (items : list (string * nat))
  : list (string * nat) :=
  fold_left (fun acc x => insert_item x acc) items []%list.

Definition first_party_entries (entries : list ScriptEntry)
  : list ScriptEntry :=
  filter first_party entries.

Definition third_party_entries (entries : list ScriptEntry)
  : list ScriptEntry :=
  filter (fun e => negb (first_party e)) entries.

(** [tp_domains]: the non-empty hosts of the third-party records. *)
Definition tp_domains (entries : list ScriptEntry) : list (string * nat) :=
  Counter
    (map host
       (filter (fun e => negb (is_empty (host e)))
          (third_party_entries entries))).

(** The rows of the category table and of the domain table. *)
Definition category_rows (entries : list ScriptEntry)
  : list (string * nat) :=
  sorted_items (cat_counts entries).

Definition domain_rows (entries : list ScriptEntry) : list (string * nat) :=
  firstn 20 (sorted_items (tp_domains entries)).

(** The value of [lines] at the end of [generate_markdown_summary]. *)
Definition summary_lines (entries : list ScriptEntry)
  (primary_domain : string) : list string :=
  ([ "# Red Specter ScriptMap Summary";
     "";
     ("**Primary domain:** `" ++ primary_domain ++ "`")%string;
     ("**Total scripts detected:** " ++ str_of_nat (total entries))%string;
     ("- First-party: "
      ++ str_of_nat (List.length (first_party_entries entries)))%string;
     ("- Third-party: "
      ++ str_of_nat (List.length (third_party_entries entries)))%string;
     "";
     "## Category Breakdown";
     "" ]
   ++ (match cat_counts entries with
       | [] => [ "_No scripts detected._" ]
       | _ :: _ =>
           [ "| Category      | Count |"; "|--------------|-------|" ]
           ++ map (fun row =>
                     ("| " ++ fst row ++ " | " ++ str_of_nat (snd row)
                      ++ " |")%string)
                (category_rows entries)
       end)
   ++ [ ""; "## Top Third-Party Domains"; "" ]
   ++ (match tp_domains entries with
       | [] => [ "_No third-party script domains detected._" ]
       | _ :: _ =>
           [ "| Domain | Count |"; "|--------|-------|" ]
           ++ map (fun row =>
                     ("| `" ++ fst row ++ "` | " ++ str_of_nat (snd row)
                      ++ " |")%string)
                (domain_rows entries)
       end)
   ++ [ "";
        "## Suggested Talking Points";
        "";
        "- Review all **third-party analytics and tracking scripts** for data minimisation and consent.";
        "- Consider **Subresource Integrity (SRI)** for CDN-hosted libraries where feasible.";
        "- Tighten your **Content-Security-Policy (CSP)** `script-src` to only allow the domains listed here.";
        "- Audit embedded **payment, social, and widget scripts** for unnecessary permissions and data access.";
        "- Maintain this script inventory as part of your **vendor and supply-chain security** documentation.";
        "" ])%list.

Definition generate_markdown_summary (entries : list ScriptEntry)
  (primary_domain : string) : string :=
  join (String Urllib.LF EmptyString) (summary_lines entries primary_domain).

(** One row of the inventory table. *)
Definition inventory_row (e : ScriptEntry) : string :=
  let party := if first_party e then "First-party" else "Third-party" in
  let notes :=
    match notes e with
    | [] => EmptyString
    | _ :: _ => join "; " (map note_text (notes e))
    end%list in
  let safe_url := escape_pipes (url e) in
  let safe_host :=
    escape_pipes (if is_empty (host e) then EmptyString else host e) in
  let safe_cat := escape_pipes (category e) in
  let safe_notes := escape_pipes notes in
  "| `" ++ safe_url ++ "` | `" ++ safe_host ++ "` | " ++ safe_cat ++ " | "
  ++ party ++ " | " ++ safe_notes ++ " |".

(** The value of [lines] at the end of [generate_markdown_table]. *)
Definition inventory_lines (entries : list ScriptEntry) : list string :=
  match entries with
  | [] => [ "# Script Inventory"; ""; "_No script URLs found in input._" ]
  | _ :: _ =>
      [ "# Script Inventory"; "";
        "| URL | Host | Category | First/Third Party | Notes |";
        "|-----|------|----------|-------------------|-------|" ]
      ++ map inventory_row entries
  end%list.

Definition generate_markdown_table (entries : list ScriptEntry) : string :=
  join (String Urllib.LF EmptyString) (inventory_lines entries).

(** ** The command-line entry point

    [main] after argument parsing: the files it writes, as pairs of a path
    and a content, in the order of the calls to [write_file], and the lines
    it prints.  Nothing is written when [process_scripts] raises. *)
Definition main (ip_address : string -> option Urllib.ip_version)
  (nfkc_rejects : string -> bool) (file_lines : list string)
  (primary_domain output_prefix : string)
  : result (list (string * string) * list string) :=
  entries <- process_scripts ip_address nfkc_rejects file_lines
               primary_domain ;;
  let base := output_base output_prefix in
  let summary_md := generate_markdown_summary entries primary_domain in
  let inventory_md := generate_markdown_table entries in
  Ok ([ ((base ++ "_summary.md")%string, summary_md);
        ((base ++ "_inventory.md")%string, inventory_md) ]%list,
      [ "[Red Specter] ScriptMap complete.";
        ("  Scripts detected: " ++ str_of_nat (List.length entries))%string;
        ("  Summary report:   " ++ base ++ "_summary.md")%string;
        ("  Inventory table:  " ++ base ++ "_inventory.md")%string ]%list).

(** ** Notions used to state the properties *)

(** [pat] occurs in [s] as a substring. *)
Definition occurs (pat s : string) : Prop :=
  exists before after, s = before ++ pat ++ after.

(** The rule table flattened in declaration order: the categories in table
    order and, within a category, its patterns in list order. *)
Definition rule_pairs (rules : list (string * list string))
  : list (string * string) :=
  flat_map (fun rule => map (pair (fst rule)) (snd rule)) rules.

(** The categories a record can carry. *)
Definition CATEGORIES : list string :=
  [ "analytics"; "ads"; "cdn/library"; "payment"; "social"; "monitoring";
    "maps"; "generic" ]%list.

(** Removal of a literal trailing suffix, if present: what the design notes
    give as the intended computation of the output base name. *)
Definition strip_literal_suffix (suffix s : string) : string :=
  if endswith suffix s
  then take (String.length s - String.length suffix) s
  else s.

(** The lines of the input for which the loop reaches [entries.append]:
    not blank, not a comment marker, and the extractor gives a non-empty
    URL. *)
Definition selected (line : string) : bool :=
  negb (is_skipped (strip line))
  && match extract_url_from_line line with
     | Some url => negb (is_empty url)
     | None => false
     end.

(** The record the loop appends for the trimmed line [raw], its URL and the
    components the normaliser returned. *)
Definition entry_from (primary_domain raw url scheme host path : string)
  : ScriptEntry :=
  mkScriptEntry raw url scheme host path
    (fst (fst (classify_script host path)))
    (snd (fst (classify_script host path)))
    (is_first_party host primary_domain)
    (snd (classify_script host path)
     ++ (if is_empty host then [NoteNoHost] else []))%list.

(** [e] is the record of the input line [line]. *)
Definition entry_of (ip_address : string -> option Urllib.ip_version)
  (nfkc_rejects : string -> bool) (primary_domain line : string)
  (e : ScriptEntry) : Prop :=
  exists url scheme host path,
    extract_url_from_line line = Some url
    /\ normalize_url ip_address nfkc_rejects url = Ok (scheme, host, path)
    /\ e = entry_from primary_domain (strip line) url scheme host path.

(** The documented end-to-end input: a URL, a comment, a script tag and a
    line that is not a URL. *)
Definition example_tag_line : string :=
  "<script src=" ++ String dquote "https://cdn.jsdelivr.net/lib.js"
  ++ String dquote "></script>".

Definition example_lines : list string :=
  [ "https://www.google-analytics.com/ga.js"; "# comment"; example_tag_line;
    "not a url" ]%list.

(** Every character of [s] satisfies [P]. *)
Fixpoint all_chars (P : ascii -> bool) (s : string) : bool :=
  match s with
  | EmptyString => true
  | String c s' => P c && all_chars P s'
  end.

(** The character [c] is not [d]. *)
Definition is_not (d c : ascii) : bool := negb (c =? d)%char.

(** The row [a] comes before the row [b] in a table of the summary: it has
    the larger count or, with equal counts, the smaller key. *)
Definition row_before (a b : string * nat) : Prop :=
  snd b < snd a \/ (snd a = snd b /\ String.ltb (fst a) (fst b) = true).

(** Characters of a plainly written URL.  A host character is ASCII and is
    neither a delimiter, a square bracket, nor one of the characters the
    parser removes (tab, carriage return, line feed); a path character is
    neither a question mark, a hash, a semicolon, nor one of the removed
    characters. *)
Definition removed_char (c : ascii) : bool :=
  (c =? Urllib.TAB)%char || (c =? Urllib.CR)%char || (c =? Urllib.LF)%char.

Definition host_char (c : ascii) : bool :=
  isascii_char c && negb (in_chars "/?#[]" c) && negb (removed_char c).

Definition path_char (c : ascii) : bool :=
  negb (in_chars "?#;" c) && negb (removed_char c).

(** * Properties *)

(** ** Facts about the string primitives *)

Section StringFacts.

Lemma length_append (a b : string) :
  String.length (a ++ b) = String.length a + String.length b.
Proof. induction a; simpl; congruence. Qed.

Lemma take_drop (n : nat) (s : string) : take n s ++ drop n s = s.
Proof.
  revert s; induction n; intros [|c s]; simpl; try reflexivity.
  now rewrite IHn.
Qed.

Lemma drop_append_length (a b : string) : drop (String.length a) (a ++ b) = b.
Proof. induction a; simpl; [now destruct b|assumption]. Qed.

Lemma startswith_append (pre rest : string) :
  startswith pre (pre ++ rest) = true.
Proof.
  induction pre; simpl; [reflexivity|].
  now rewrite Ascii.eqb_refl.
Qed.

Lemma startswith_inv (pre s : string) :
  startswith pre s = true -> exists rest, s = pre ++ rest.
Proof.
  revert s; induction pre as [|a pre IH]; intros s H.
  - now exists s.
  - destruct s as [|b s]; simpl in H; [discriminate|].
    apply andb_true_iff in H as [Hab H].
    apply Ascii.eqb_eq in Hab; subst b.
    destruct (IH _ H) as [rest ->]. now exists rest.
Qed.

(** [startswith] decides being a prefix. *)
Lemma startswith_spec (pre s : string) :
  startswith pre s = true <-> exists rest, s = pre ++ rest.
Proof.
  split; [apply startswith_inv|].
  intros [rest ->]; apply startswith_append.
Qed.

(** [endswith] decides being a suffix. *)
Lemma endswith_spec (suf s : string) :
  endswith suf s = true <-> exists pre, s = pre ++ suf.
Proof.
  unfold endswith; split.
  - intros H; apply andb_true_iff in H as [Hlen Heq].
    apply String.eqb_eq in Heq.
    exists (take (String.length s - String.length suf) s).
    rewrite <- Heq at 2. now rewrite take_drop.
  - intros [pre ->]. rewrite length_append.
    replace (String.length pre + String.length suf - String.length suf)
      with (String.length pre) by lia.
    rewrite drop_append_length, String.eqb_refl, andb_true_r.
    apply Nat.leb_le; lia.
Qed.

(** [contains] decides occurring as a substring. *)
Lemma contains_spec (sub s : string) :
  contains sub s = true <-> exists a b, s = a ++ sub ++ b.
Proof.
  split.
  - induction s as [|c s IH]; simpl; intros H.
    + rewrite orb_false_r in H.
      destruct (startswith_inv _ _ H) as [rest E].
      now exists "", rest.
    + apply orb_true_iff in H as [H|H].
      * destruct (startswith_inv _ _ H) as [rest E].
        now exists "", rest.
      * destruct (IH H) as (a & b & ->). now exists (String c a), b.
  - intros (a & b & ->). induction a as [|c a IH]; simpl.
    + pose proof (startswith_append sub b) as H.
      destruct (sub ++ b); simpl; now rewrite H.
    + rewrite IH. apply orb_true_r.
Qed.


End StringFacts.

(** ** Facts about stripping *)

Section StripFacts.

Variables p q : ascii -> bool.
Hypothesis q_in_p : forall c, q c = true -> p c = true.

(** Stripping a smaller set of trailing characters first changes nothing. *)
Lemma rstrip_by_absorb (s : string) :
  rstrip_by p (rstrip_by q s) = rstrip_by p s.
Proof.
  induction s as [|c s IH]; simpl; [reflexivity|].
  destruct (is_empty (rstrip_by q s) && q c) eqn:E.
  - apply andb_true_iff in E as [E1 E2].
    destruct (rstrip_by q s); [|discriminate].
    simpl in IH. rewrite <- IH. simpl. now rewrite (q_in_p _ E2).
  - simpl. now rewrite IH.
Qed.

(** Leading and trailing stripping commute. *)
Lemma lstrip_rstrip_comm (s : string) :
  lstrip_by p (rstrip_by q s) = rstrip_by q (lstrip_by p s).
Proof.
  induction s as [|c s IH]; simpl; [reflexivity|].
  destruct (p c) eqn:Pc.
  - destruct (is_empty (rstrip_by q s) && q c) eqn:E.
    + apply andb_true_iff in E as [E1 _].
      destruct (rstrip_by q s); [|discriminate].
      now rewrite <- IH.
    + simpl. now rewrite Pc.
  - assert (Qc : q c = false).
    { destruct (q c) eqn:Qc; [|reflexivity].
      apply q_in_p in Qc; congruence. }
    rewrite Qc, andb_false_r. simpl. now rewrite Pc, Qc, andb_false_r.
Qed.

End StripFacts.

Lemma lstrip_by_idem (p : ascii -> bool) (s : string) :
  lstrip_by p (lstrip_by p s) = lstrip_by p s.
Proof.
  induction s as [|c s IH]; simpl; [reflexivity|].
  destruct (p c) eqn:Pc; [assumption|]. simpl. now rewrite Pc.
Qed.

(** [strip] is idempotent: the loop strips the line and the extractor strips
    it again. *)
Lemma strip_idem (s : string) : strip (strip s) = strip s.
Proof.
  unfold strip.
  rewrite (lstrip_rstrip_comm isspace isspace) by auto.
  rewrite lstrip_by_idem.
  apply rstrip_by_absorb; auto.
Qed.

Lemma LF_isspace (c : ascii) :
  in_chars (String Urllib.LF EmptyString) c = true -> isspace c = true.
Proof.
  simpl. rewrite orb_false_r. intros H.
  apply Ascii.eqb_eq in H. now subst c.
Qed.

(** The line feeds [read_input_lines] removes are removed by [strip] too. *)
Lemma strip_read_line (s : string) :
  strip (rstrip_chars (String Urllib.LF EmptyString) s) = strip s.
Proof.
  unfold strip, rstrip_chars.
  rewrite (lstrip_rstrip_comm isspace _ LF_isspace).
  apply rstrip_by_absorb, LF_isspace.
Qed.

Lemma extract_url_strip (line : string) :
  extract_url_from_line (strip line) = extract_url_from_line line.
Proof. unfold extract_url_from_line. now rewrite strip_idem. Qed.

(** What [rstrip_by] removes and what it leaves. *)
Lemma rstrip_by_spec (p : ascii -> bool) (s : string) :
  exists tail,
    s = rstrip_by p s ++ tail
    /\ (forall c, in_chars tail c = true -> p c = true)
    /\ (forall front c,
          rstrip_by p s = front ++ String c EmptyString -> p c = false).
Proof.
  induction s as [|c s (tail & E & Htail & Hlast)]; simpl.
  - exists "". repeat split; try discriminate.
    intros [|? ?] ? ?; discriminate.
  - destruct (is_empty (rstrip_by p s) && p c) eqn:B.
    + apply andb_true_iff in B as [B1 B2].
      destruct (rstrip_by p s); [|discriminate]. simpl in E. subst tail.
      exists (String c s). repeat split.
      * intros d Hd. simpl in Hd. apply orb_true_iff in Hd as [Hd|Hd].
        -- apply Ascii.eqb_eq in Hd. now subst d.
        -- auto.
      * intros [|? ?] ? ?; discriminate.
    + exists tail. repeat split.
      * simpl. now rewrite <- E.
      * assumption.
      * intros front d Hd.
        destruct front as [|f front]; simpl in Hd.
        -- injection Hd as -> Hr. rewrite Hr in B. simpl in B.
           destruct (p d); [discriminate|reflexivity].
        -- injection Hd as _ Hr. eauto.
Qed.

Lemma lstrip_by_spec (p : ascii -> bool) (s : string) :
  exists front,
    s = front ++ lstrip_by p s
    /\ (forall c, in_chars front c = true -> p c = true)
    /\ (forall c rest, lstrip_by p s = String c rest -> p c = false).
Proof.
  induction s as [|c s (front & E & Hfront & Hfirst)]; simpl.
  - exists "". repeat split; discriminate.
  - destruct (p c) eqn:Pc.
    + exists (String c front). repeat split.
      * simpl. now rewrite <- E.
      * intros d Hd. simpl in Hd. apply orb_true_iff in Hd as [Hd|Hd].
        -- apply Ascii.eqb_eq in Hd. now subst d.
        -- auto.
      * assumption.
    + exists "". repeat split; try discriminate.
      intros d rest Hd. injection Hd as -> _. assumption.
Qed.

Lemma is_empty_false (s : string) : is_empty s = false <-> s <> "".
Proof. destruct s; simpl; split; congruence. Qed.

(** ** Party classifier *)

(** C2.  [is_first_party] is false when the host or the primary domain is
    empty; otherwise it is true exactly when the lower-cased host equals the
    primary domain (lower-cased, leading dots removed) or ends with a dot
    followed by it.  The four documented examples evaluate as stated. *)
Theorem is_first_party_spec (host primary_domain : string) :
  (host = "" \/ primary_domain = "" ->
   is_first_party host primary_domain = false)
  /\ (host <> "" -> primary_domain <> "" ->
      exists dots domain,
        lower primary_domain = dots ++ domain
        /\ (forall c, in_chars dots c = true -> c = "."%char)
        /\ startswith "." domain = false
        /\ (is_first_party host primary_domain = true <->
            lower host = domain
            \/ exists sub, lower host = sub ++ "." ++ domain))
  /\ is_first_party "a.example.com" "example.com" = true
  /\ is_first_party "example.com" "example.com" = true
  /\ is_first_party "notexample.com" "example.com" = false
  /\ is_first_party "example.com.evil.com" "example.com" = false.
Proof.
  split; [|split; [|repeat split; reflexivity]].
  - intros [-> | ->]; unfold is_first_party; simpl; [reflexivity|].
    now rewrite orb_true_r.
  - intros Hh Hp. unfold is_first_party.
    apply is_empty_false in Hh, Hp. rewrite Hh, Hp. simpl.
    destruct (lstrip_by_spec (in_chars ".") (lower primary_domain))
      as (dots & E & Hdots & Hfirst).
    exists dots, (lstrip_chars "." (lower primary_domain)).
    split; [exact E|]. split; [|split].
    + intros c Hc. apply Hdots in Hc. simpl in Hc.
      rewrite orb_false_r in Hc. now apply Ascii.eqb_eq in Hc.
    + unfold lstrip_chars.
      destruct (lstrip_by (in_chars ".") (lower primary_domain))
        as [|c rest] eqn:L; [reflexivity|].
      specialize (Hfirst _ _ eq_refl). simpl in *.
      rewrite orb_false_r in Hfirst. rewrite Ascii.eqb_sym in Hfirst.
      now rewrite Hfirst.
    + rewrite orb_true_iff, String.eqb_eq, endswith_spec. reflexivity.
Qed.

(** ** Output base name *)

(** C9.  The base name is the prefix without its trailing run of the
    characters [.], [m] and [d], whatever their order; for some prefixes
    this differs from removing a literal trailing [.md]. *)
Theorem output_base_strips_character_set :
  (forall output_prefix,
      exists tail,
        output_prefix = output_base output_prefix ++ tail
        /\ (forall c, in_chars tail c = true ->
                      c = "."%char \/ c = "m"%char \/ c = "d"%char)
        /\ (forall front c,
              output_base output_prefix = front ++ String c EmptyString ->
              c <> "."%char /\ c <> "m"%char /\ c <> "d"%char))
  /\ output_base "prod" = "pro"
  /\ strip_literal_suffix ".md" "prod" = "prod"
  /\ output_base "command.md" = "comman"
  /\ strip_literal_suffix ".md" "command.md" = "command"
  /\ (exists output_prefix,
        output_base output_prefix <> strip_literal_suffix ".md" output_prefix).
Proof.
  split; [|do 4 (split; [reflexivity|])].
  - intros output_prefix. unfold output_base, rstrip_chars.
    destruct (rstrip_by_spec (in_chars ".md") output_prefix)
      as (tail & E & Htail & Hlast).
    exists tail. split; [exact E|]. split.
    + intros c Hc. apply Htail in Hc. simpl in Hc.
      rewrite orb_false_r in Hc.
      repeat (apply orb_true_iff in Hc as [Hc|Hc];
              [apply Ascii.eqb_eq in Hc; auto|]).
      apply Ascii.eqb_eq in Hc; auto.
    + intros front c Hc. apply Hlast in Hc.
      repeat split; intros ->; discriminate.
  - exists "prod". discriminate.
Qed.

(** ** Category classifier *)

Section FirstMatch.

Variable combined : string.

Lemma first_pattern_some (patterns : list string) (pattern : string) :
  first_pattern combined patterns = Some pattern ->
  exists before after,
    patterns = (before ++ pattern :: after)%list
    /\ contains (lower pattern) combined = true
    /\ (forall q, In q before -> contains (lower q) combined = false).
Proof.
  induction patterns as [|p rest IH]; simpl; [discriminate|].
  destruct (contains (lower p) combined) eqn:E.
  - intros [= ->]. exists []%list, rest. repeat split; auto.
    intros q [].
  - intros H. destruct (IH H) as (before & after & -> & Hin & Hbefore).
    exists (p :: before)%list, after. repeat split; auto.
    intros q [<- | Hq]; auto.
Qed.

Lemma first_pattern_none (patterns : list string) :
  first_pattern combined patterns = None ->
  forall q, In q patterns -> contains (lower q) combined = false.
Proof.
  induction patterns as [|p rest IH]; simpl; [intros _ q []|].
  destruct (contains (lower p) combined) eqn:E; [discriminate|].
  intros H q [<- | Hq]; auto.
Qed.

Lemma first_rule_some (rules : list (string * list string))
  (cat pattern : string) :
  first_rule combined rules = Some (cat, pattern) ->
  exists before after,
    rule_pairs rules = (before ++ (cat, pattern) :: after)%list
    /\ contains (lower pattern) combined = true
    /\ (forall c q, In (c, q) before -> contains (lower q) combined = false).
Proof.
  induction rules as [|[c patterns] rest IH]; simpl; [discriminate|].
  destruct (first_pattern combined patterns) as [p|] eqn:E.
  - intros [= -> ->].
    destruct (first_pattern_some _ _ E) as (b & a & -> & Hin & Hb).
    exists (map (pair cat) b),
      (map (pair cat) a ++ rule_pairs rest)%list.
    split; [|split; [assumption|]].
    + rewrite map_app. simpl. now rewrite <- app_assoc.
    + intros c q Hq. apply in_map_iff in Hq as (q' & [= _ <-] & Hq'). auto.
  - intros H. destruct (IH H) as (b & a & Eq & Hin & Hb).
    exists (map (pair c) patterns ++ b)%list, a.
    split; [|split; [assumption|]].
    + unfold rule_pairs in *. simpl. rewrite Eq. now rewrite <- app_assoc.
    + intros c' q Hq. apply in_app_or in Hq as [Hq|Hq]; [|eauto].
      apply in_map_iff in Hq as (q' & [= _ <-] & Hq').
      eapply first_pattern_none; eauto.
Qed.

Lemma first_rule_none (rules : list (string * list string)) :
  first_rule combined rules = None ->
  forall c q, In (c, q) (rule_pairs rules) ->
              contains (lower q) combined = false.
Proof.
  induction rules as [|[c patterns] rest IH]; simpl; [intros _ ? ? []|].
  destruct (first_pattern combined patterns) as [p|] eqn:E; [discriminate|].
  intros H c' q Hq. apply in_app_or in Hq as [Hq|Hq]; [|eauto].
  apply in_map_iff in Hq as (q' & [= _ <-] & Hq').
  eapply first_pattern_none; eauto.
Qed.

End FirstMatch.

(** Every pattern of the table is already in lower case. *)
Lemma rule_patterns_lower (c q : string) :
  In (c, q) (rule_pairs CATEGORY_RULES) -> lower q = q.
Proof.
  assert (H : forallb (fun r => lower (snd r) =? snd r)
                (rule_pairs CATEGORY_RULES) = true) by reflexivity.
  rewrite forallb_forall in H.
  intros Hin. apply H in Hin. now apply String.eqb_eq in Hin.
Qed.

Lemma occurs_iff (pat s : string) : contains pat s = true <-> occurs pat s.
Proof. apply contains_spec. Qed.

Lemma not_occurs_iff (pat s : string) :
  contains pat s = false <-> ~ occurs pat s.
Proof.
  rewrite <- occurs_iff. destruct (contains pat s); split; congruence.
Qed.

(** C1.  The classifier searches the lower-cased host followed by the
    lower-cased path.  Either some pattern of the table occurs in it, and the
    result is the category and pattern of the first such pattern in table
    order (categories analytics, ads, cdn/library, payment, social,
    monitoring, maps; patterns in list order) with no notes; or none occurs,
    and the result is the generic category with an empty subcategory and the
    heuristic notes, which are produced in this case only. *)
Theorem classify_script_first_match (host path : string) :
  let combined := lower host ++ lower path in
  map fst CATEGORY_RULES
  = [ "analytics"; "ads"; "cdn/library"; "payment"; "social"; "monitoring";
      "maps" ]%list
  /\ ((exists before cat pattern after,
          rule_pairs CATEGORY_RULES
          = (before ++ (cat, pattern) :: after)%list
          /\ occurs pattern combined
          /\ (forall c q, In (c, q) before -> ~ occurs q combined)
          /\ classify_script host path = (cat, pattern, []%list))
      \/ ((forall c q, In (c, q) (rule_pairs CATEGORY_RULES) ->
                       ~ occurs q combined)
          /\ classify_script host path
             = ("generic", "",
                ((if contains "widget" combined
                  then [NoteWidget] else [])
                 ++ (if contains "tracker" combined
                        || contains "track" combined
                     then [NoteTracking] else [])
                 ++ (if contains "bundle" combined
                        || contains "vendor" combined
                     then [NoteBundle] else []))%list))).
Proof.
  intros combined. split; [reflexivity|].
  unfold classify_script. fold combined.
  destruct (first_rule combined CATEGORY_RULES) as [[cat pattern]|] eqn:E.
  - left. destruct (first_rule_some _ _ _ _ E) as (b & a & Eq & Hin & Hb).
    exists b, cat, pattern, a. split; [exact Eq|].
    assert (Hall : forall c q, In (c, q) (b ++ (cat, pattern) :: a)%list ->
                               lower q = q).
    { intros c q Hq. rewrite <- Eq in Hq. eapply rule_patterns_lower; eauto. }
    split; [|split; [|reflexivity]].
    + apply occurs_iff. rewrite <- (Hall cat pattern); [assumption|].
      apply in_or_app. right. now left.
    + intros c q Hq. apply not_occurs_iff.
      rewrite <- (Hall c q); [eauto|]. apply in_or_app. now left.
  - right. split.
    + intros c q Hq. apply not_occurs_iff.
      rewrite <- (rule_patterns_lower c q Hq).
      eapply first_rule_none; eauto.
    + destruct (contains "widget" combined),
        (contains "tracker" combined || contains "track" combined),
        (contains "bundle" combined || contains "vendor" combined);
        reflexivity.
Qed.

(** C4, as stated, fails: the host [unknownvendor.io] holds the heuristic
    substring [vendor], so the notes are not empty. *)
Lemma classify_unknown_vendor_notes_not_empty :
  classify_script "unknownvendor.io" "/lib.js" <> ("generic", "", []%list).
Proof. discriminate. Qed.

(** C4, amended.  The host [unknownvendor.io] with path [/lib.js] is
    generic with an empty subcategory, and carries exactly the bundle/vendor
    note, since [vendor] occurs in the host. *)
Theorem classify_unknown_vendor :
  classify_script "unknownvendor.io" "/lib.js"
  = ("generic", "", [NoteBundle]%list)
  /\ contains "vendor" (lower "unknownvendor.io" ++ lower "/lib.js") = true.
Proof. split; reflexivity. Qed.

(** A host without any heuristic substring gets no note. *)
Example classify_unknown_host :
  classify_script "unknownhost.io" "/lib.js" = ("generic", "", []%list).
Proof. reflexivity. Qed.

(** The documented analytics example. *)
Example classify_googletagmanager :
  classify_script "www.googletagmanager.com" "/gtm.js"
  = ("analytics", "googletagmanager.com", []%list).
Proof. reflexivity. Qed.

(** ** The loop of the orchestrator *)

Lemma result_raise (A : Type) (e : exn) : @Raise A e = Raise ValueError.
Proof. now destruct e. Qed.

Section LoopFacts.

Variable ip_address : string -> option Urllib.ip_version.
Variable nfkc_rejects : string -> bool.
Variable primary_domain : string.

Abbreviation normalize := (normalize_url ip_address nfkc_rejects).
Abbreviation loop := (process_loop ip_address nfkc_rejects primary_domain).

(** One turn of the loop. *)
Lemma process_loop_cons (line : string) (rest : list string)
  (entries : list ScriptEntry) :
  loop (line :: rest) entries
  = if selected line then
      match extract_url_from_line line with
      | Some url =>
          '(scheme, host, path) <- normalize url ;;
          loop rest
            (entries
             ++ [entry_from primary_domain (strip line) url scheme host
                   path])%list
      | None => loop rest entries
      end
    else loop rest entries.
Proof.
  unfold selected. cbn [process_loop].
  rewrite extract_url_strip.
  destruct (is_skipped (strip line)); [reflexivity|].
  destruct (extract_url_from_line line) as [url|]; [|reflexivity].
  destruct (is_empty url); [reflexivity|]. cbn [negb andb].
  destruct (normalize url) as [[[scheme host] path]|e]; [|reflexivity].
  cbn [bind]. unfold entry_from.
  destruct (classify_script host path) as [[cat sub] notes]. cbn [fst snd].
  destruct (is_empty host); [reflexivity|]. now rewrite app_nil_r.
Qed.

(** A line that is not selected leaves the run unchanged. *)
Lemma process_loop_not_selected (line : string) :
  selected line = false ->
  forall before after entries,
    loop (before ++ line :: after)%list entries
    = loop (before ++ after)%list entries.
Proof.
  intros Hsel before after.
  induction before as [|l before IH]; intros entries.
  - cbn [app]. now rewrite process_loop_cons, Hsel.
  - cbn [app]. rewrite !process_loop_cons.
    destruct (selected l); [|apply IH].
    destruct (extract_url_from_line l) as [url|]; [|apply IH].
    destruct (normalize url) as [[[scheme host] path]|e]; [|reflexivity].
    cbn [bind]. apply IH.
Qed.

(** A completed run appended one record per selected line, in order. *)
Lemma process_loop_inv (lines : list string) :
  forall entries out,
    loop lines entries = Ok out ->
    exists new,
      out = (entries ++ new)%list
      /\ Forall2 (entry_of ip_address nfkc_rejects primary_domain)
           (filter selected lines) new.
Proof.
  induction lines as [|line rest IH]; intros entries out.
  - cbn. intros [= <-]. exists []%list. now rewrite app_nil_r.
  - rewrite process_loop_cons. cbn [filter].
    destruct (selected line) eqn:Hsel; [|apply IH].
    unfold selected in Hsel. apply andb_true_iff in Hsel as [_ Hurl].
    destruct (extract_url_from_line line) as [url|] eqn:Hext; [|discriminate].
    destruct (normalize url) as [[[scheme host] path]|e] eqn:Hn;
      [|discriminate].
    cbn [bind]. intros H. destruct (IH _ _ H) as (new & -> & Hall).
    eexists (_ :: new)%list. split.
    + now rewrite <- app_assoc.
    + constructor; [|assumption].
      now exists url, scheme, host, path.
Qed.

(** The run completes when the URL of every selected line parses. *)
Lemma process_loop_ok (lines : list string) :
  (forall line url,
      In line lines -> selected line = true ->
      extract_url_from_line line = Some url ->
      exists r, normalize url = Ok r) ->
  forall entries, exists out, loop lines entries = Ok out.
Proof.
  induction lines as [|line rest IH]; intros Hok entries.
  - now exists entries.
  - assert (Hrest : forall l u, In l rest -> selected l = true ->
                      extract_url_from_line l = Some u ->
                      exists r, normalize u = Ok r)
      by (intros; eapply Hok; eauto; now right).
    rewrite process_loop_cons.
    destruct (selected line) eqn:Hsel; [|now apply IH].
    destruct (extract_url_from_line line) as [url|] eqn:Hext; [|now apply IH].
    destruct (Hok line url (or_introl eq_refl) Hsel Hext)
      as ([[scheme host] path] & ->).
    cbn [bind]. now apply IH.
Qed.

(** The run is aborted when the URL of some selected line does not parse,
    wherever the line stands. *)
Lemma process_loop_raise (lines : list string) (line url : string) (e : exn) :
  In line lines -> selected line = true ->
  extract_url_from_line line = Some url ->
  normalize url = Raise e ->
  forall entries, loop lines entries = Raise ValueError.
Proof.
  intros Hin Hsel Hext Hn.
  induction lines as [|l rest IH]; [destruct Hin|]; intros entries.
  rewrite process_loop_cons.
  destruct Hin as [-> | Hin].
  - rewrite Hsel, Hext, Hn. apply result_raise.
  - destruct (selected l); [|now apply IH].
    destruct (extract_url_from_line l) as [u|]; [|now apply IH].
    destruct (normalize u) as [[[s h] p]|e']; [|apply result_raise].
    cbn [bind]. now apply IH.
Qed.

End LoopFacts.

(** Reading the file does not change which lines are selected, nor their
    trimmed form, nor what the extractor returns. *)
Lemma extract_url_read_line (line : string) :
  extract_url_from_line (rstrip_chars (String Urllib.LF EmptyString) line)
  = extract_url_from_line line.
Proof.
  rewrite <- extract_url_strip, strip_read_line. apply extract_url_strip.
Qed.

Lemma selected_read_line (line : string) :
  selected (rstrip_chars (String Urllib.LF EmptyString) line) = selected line.
Proof.
  unfold selected. now rewrite strip_read_line, extract_url_read_line.
Qed.

Lemma filter_selected_read (file_lines : list string) :
  filter selected (read_input_lines file_lines)
  = read_input_lines (filter selected file_lines).
Proof.
  unfold read_input_lines.
  induction file_lines as [|l rest IH]; [reflexivity|].
  cbn [map filter]. rewrite selected_read_line.
  destruct (selected l); cbn [map]; now rewrite IH.
Qed.

Lemma process_scripts_not_selected
  (ip_address : string -> option Urllib.ip_version)
  (nfkc_rejects : string -> bool) (primary_domain line : string) :
  selected line = false ->
  forall before after,
    process_scripts ip_address nfkc_rejects (before ++ line :: after)%list
      primary_domain
    = process_scripts ip_address nfkc_rejects (before ++ after)%list
        primary_domain.
Proof.
  intros Hsel before after. unfold process_scripts, read_input_lines.
  rewrite !map_app. cbn [map].
  apply process_loop_not_selected. now rewrite selected_read_line.
Qed.

Lemma process_scripts_inv
  (ip_address : string -> option Urllib.ip_version)
  (nfkc_rejects : string -> bool) (primary_domain : string)
  (file_lines : list string) (entries : list ScriptEntry) :
  process_scripts ip_address nfkc_rejects file_lines primary_domain
  = Ok entries ->
  Forall2 (entry_of ip_address nfkc_rejects primary_domain)
    (filter selected file_lines) entries.
Proof.
  unfold process_scripts. intros H.
  apply process_loop_inv in H as (new & -> & Hall). cbn [app].
  rewrite filter_selected_read in Hall. unfold read_input_lines in Hall.
  remember (filter selected file_lines) as sel eqn:Esel. clear Esel.
  revert new Hall.
  induction sel as [|l sel IH]; intros new Hall; cbn [map] in Hall;
    inversion Hall as [|x y xs ys Hxy Hrest]; subst; constructor.
  - destruct Hxy as (url & scheme & host & path & Hext & Hn & ->).
    rewrite extract_url_read_line in Hext. rewrite strip_read_line.
    now exists url, scheme, host, path.
  - now apply IH.
Qed.

(** ** End-to-end example *)

(** C3.  The four documented lines give exactly two records, in input
    order: the analytics URL, third-party, and the URL of the script tag,
    category cdn/library, third-party.  The comment line and the line that is
    not a URL are not selected and give no record. *)
Theorem end_to_end_example
  (ip_address : string -> option Urllib.ip_version)
  (nfkc_rejects : string -> bool) :
  process_scripts ip_address nfkc_rejects example_lines "example.com"
  = Ok [ mkScriptEntry
           "https://www.google-analytics.com/ga.js"
           "https://www.google-analytics.com/ga.js"
           "https" "www.google-analytics.com" "/ga.js"
           "analytics" "google-analytics.com" false [];
         mkScriptEntry
           example_tag_line
           "https://cdn.jsdelivr.net/lib.js"
           "https" "cdn.jsdelivr.net" "/lib.js"
           "cdn/library" "cdn." false [] ]%list
  /\ selected "# comment" = false
  /\ selected "not a url" = false
  /\ process_scripts ip_address nfkc_rejects ["# comment"; "not a url"]%list
       "example.com" = Ok []%list.
Proof. repeat split; vm_compute; reflexivity. Qed.

(** ** Lines starting with two slashes *)

Lemma startswith_nonempty (pre s : string) :
  pre <> "" -> startswith pre s = true -> is_empty s = false.
Proof. destruct pre, s; simpl; congruence. Qed.

(** C6.  A line whose trimmed form starts with two slashes is passed over
    by the orchestrator as a comment: removing it from the input changes
    nothing and alone it gives no record.  The extractor on its own does
    return a URL candidate for such a line: the trimmed line itself, unless
    the line holds a script tag with a [src] attribute. *)
Theorem double_slash_line_skipped
  (ip_address : string -> option Urllib.ip_version)
  (nfkc_rejects : string -> bool) (primary_domain line : string) :
  startswith "//" (strip line) = true ->
  (forall before after,
      process_scripts ip_address nfkc_rejects (before ++ line :: after)%list
        primary_domain
      = process_scripts ip_address nfkc_rejects (before ++ after)%list
          primary_domain)
  /\ process_scripts ip_address nfkc_rejects [line]%list primary_domain
     = Ok []%list
  /\ extract_url_from_line line <> None
  /\ (contains "<script" (lower (strip line)) = false
      \/ Re.search (strip line) = None ->
      extract_url_from_line line = Some (strip line)).
Proof.
  intros Hstart.
  assert (Hsel : selected line = false).
  { unfold selected, is_skipped, startswith_any. cbn [existsb].
    rewrite Hstart. now rewrite !orb_true_r. }
  assert (Hne : is_empty (strip line) = false)
    by (eapply startswith_nonempty; [|exact Hstart]; discriminate).
  assert (Hany : startswith_any ["http://"; "https://"; "//"]%list
                   (strip line) = true).
  { unfold startswith_any. cbn [existsb].
    rewrite Hstart. now rewrite !orb_true_r. }
  split; [|split; [|split]].
  - now apply process_scripts_not_selected.
  - apply (process_scripts_not_selected ip_address nfkc_rejects primary_domain
             line Hsel []%list []%list).
  - unfold extract_url_from_line. rewrite Hne, Hany.
    now destruct (if contains "<script" (lower (strip line))
                  then Re.search (strip line) else None).
  - intros H. unfold extract_url_from_line. rewrite Hne, Hany.
    destruct H as [-> | H]; [reflexivity|].
    rewrite H. now destruct (contains "<script" (lower (strip line))).
Qed.

(** The statement at a protocol-relative URL given as a bare line. *)
Lemma double_slash_line_skipped_witness :
  process_scripts ip_address_lenient nfkc_never_rejects
    ["  //cdn.example.com/lib.js"]%list "example.com" = Ok []%list
  /\ extract_url_from_line "  //cdn.example.com/lib.js"
     = Some "//cdn.example.com/lib.js".
Proof.
  destruct (double_slash_line_skipped ip_address_lenient nfkc_never_rejects
              "example.com" "  //cdn.example.com/lib.js" eq_refl)
    as (_ & Hrun & _ & Hext).
  split; [exact Hrun|]. apply Hext. now left.
Defined.

(** ** Script tags without a [src] attribute *)

(** C7, as stated, fails: a line that holds [<script], has no [src]
    attribute and starts with [https://] is returned as a URL. *)
Lemma script_without_src_still_extracted :
  contains "<script" (lower (strip "https://x.example/<script>")) = true
  /\ Re.search (strip "https://x.example/<script>") = None
  /\ extract_url_from_line "https://x.example/<script>"
     = Some "https://x.example/<script>".
Proof. repeat split; reflexivity. Qed.

(** C7, amended.  When the trimmed line holds [<script] (in any case) and
    no [src] attribute is found, the extractor goes on to the URL test: it
    returns the trimmed line when that starts with [http://], [https://] or
    two slashes, and nothing otherwise. *)
Theorem extract_script_without_src (line : string) :
  contains "<script" (lower (strip line)) = true ->
  Re.search (strip line) = None ->
  extract_url_from_line line
  = if startswith_any ["http://"; "https://"; "//"]%list (strip line)
    then Some (strip line)
    else None.
Proof.
  intros Hscript Hsearch. unfold extract_url_from_line.
  rewrite Hscript, Hsearch.
  destruct (strip line); [discriminate Hscript|reflexivity].
Qed.

(** The amended statement at an inline script tag: nothing is extracted. *)
Lemma extract_script_without_src_witness :
  extract_url_from_line "<SCRIPT>alert(1)</SCRIPT>" = None.
Proof.
  exact (extract_script_without_src "<SCRIPT>alert(1)</SCRIPT>"
           eq_refl eq_refl).
Defined.

(** ** Invariants of the records *)

Lemma first_rule_category (combined : string)
  (rules : list (string * list string)) (cat pattern : string) :
  first_rule combined rules = Some (cat, pattern) -> In cat (map fst rules).
Proof.
  induction rules as [|[c patterns] rest IH]; simpl; [discriminate|].
  destruct (first_pattern combined patterns).
  - intros [= -> _]. now left.
  - intros H. right. auto.
Qed.

Lemma classify_script_category (host path : string) :
  In (fst (fst (classify_script host path))) CATEGORIES.
Proof.
  unfold classify_script.
  destruct (first_rule _ CATEGORY_RULES) as [[cat pattern]|] eqn:E.
  - apply first_rule_category in E. cbn [fst].
    change CATEGORIES with (map fst CATEGORY_RULES ++ ["generic"])%list.
    apply in_or_app. now left.
  - cbn [fst]. unfold CATEGORIES. simpl. intuition.
Qed.

Lemma categories_nonempty (cat : string) : In cat CATEGORIES -> cat <> "".
Proof.
  unfold CATEGORIES. simpl.
  intros H; repeat (destruct H as [<- | H]; [discriminate|]).
  destruct H.
Qed.

Lemma Forall2_in_right (A B : Type) (R : A -> B -> Prop)
  (xs : list A) (ys : list B) (y : B) :
  Forall2 R xs ys -> In y ys -> exists x, In x xs /\ R x y.
Proof.
  induction 1 as [|x y' xs ys Hxy _ IH]; [intros []|].
  intros [<- | Hin].
  - exists x. split; [now left|assumption].
  - destruct (IH Hin) as (x' & Hx' & HR).
    exists x'. split; [now right|assumption].
Qed.

(** C8.  Every record of a completed run has a non-empty category from the
    fixed set of eight; a record whose host is empty is third-party and its
    notes are the notes of the classifier followed by the note of the
    missing host.  A line whose URL normalises to an empty host is not
    discarded: it gives a record. *)
Theorem record_invariants
  (ip_address : string -> option Urllib.ip_version)
  (nfkc_rejects : string -> bool) (primary_domain : string) :
  (forall file_lines entries e,
      process_scripts ip_address nfkc_rejects file_lines primary_domain
      = Ok entries ->
      In e entries ->
      category e <> ""
      /\ In (category e) CATEGORIES
      /\ (host e = "" ->
          first_party e = false
          /\ notes e
             = (snd (classify_script (host e) (path e)) ++ [NoteNoHost])%list))
  /\ (forall line url scheme path,
         selected line = true ->
         extract_url_from_line line = Some url ->
         normalize_url ip_address nfkc_rejects url = Ok (scheme, "", path) ->
         exists e,
           process_scripts ip_address nfkc_rejects [line]%list primary_domain
           = Ok [e]%list
           /\ host e = "" /\ first_party e = false
           /\ notes e
              = (snd (classify_script "" path) ++ [NoteNoHost])%list)
  /\ note_text NoteNoHost = "No host component detected"
  /\ process_scripts ip_address nfkc_rejects ["http:///widget.js"]%list
       primary_domain
     = Ok [ mkScriptEntry "http:///widget.js" "http:///widget.js"
              "http" "" "/widget.js" "generic" "" false
              [NoteWidget; NoteNoHost] ]%list.
Proof.
  split; [|split; [|split; [reflexivity|]]].
  - intros file_lines entries e Hrun Hin.
    apply process_scripts_inv in Hrun.
    destruct (Forall2_in_right _ _ _ _ _ _ Hrun Hin)
      as (line & _ & u & s & h & p & _ & _ & ->).
    unfold entry_from. cbn [category host path first_party notes].
    pose proof (classify_script_category h p) as Hcat.
    split; [now apply categories_nonempty|]. split; [assumption|].
    intros ->. split; reflexivity.
  - intros line url scheme path Hsel Hext Hn.
    exists (entry_from primary_domain (strip line) url scheme "" path).
    split; [|repeat split].
    unfold process_scripts, read_input_lines. cbn [map].
    rewrite process_loop_cons, selected_read_line, Hsel.
    rewrite extract_url_read_line, Hext, Hn. cbn [bind process_loop app].
    now rewrite strip_read_line.
  - unfold process_scripts. vm_compute. reflexivity.
Qed.

(** ** No deduplication *)

Lemma counter_get_add (key k : string) (counts : list (string * nat)) :
  counter_get (counter_add key counts) k
  = counter_get counts k + (if key =? k then 1 else 0).
Proof.
  induction counts as [|[k' n] rest IH]; simpl.
  - destruct (key =? k); reflexivity.
  - destruct (k' =? key) eqn:E; simpl.
    + apply String.eqb_eq in E. subst k'.
      destruct (key =? k); lia.
    + destruct (k' =? k) eqn:E'; [|assumption].
      apply String.eqb_eq in E'. subst k'.
      rewrite String.eqb_sym in E. rewrite E. lia.
Qed.

(** A [Counter] counts every occurrence of a key. *)
Lemma counter_get_Counter (keys : list string) (k : string) :
  counter_get (Counter keys) k = count_occ string_dec keys k.
Proof.
  unfold Counter.
  assert (H : forall counts,
             counter_get
               (fold_left (fun counts key => counter_add key counts)
                  keys counts) k
             = counter_get counts k + count_occ string_dec keys k).
  { induction keys as [|key rest IH]; intros counts; cbn [fold_left count_occ].
    - lia.
    - rewrite IH, counter_get_add.
      destruct (string_dec key k) as [->|Hne].
      + rewrite String.eqb_refl. lia.
      + apply String.eqb_neq in Hne. rewrite Hne. lia. }
  apply H.
Qed.

Lemma count_occ_repeat_same (k : string) (n : nat) :
  count_occ string_dec (repeat k n) k = n.
Proof.
  induction n; simpl; [reflexivity|].
  destruct (string_dec k k); congruence.
Qed.

Lemma map_repeat_eq (A B : Type) (f : A -> B) (x : A) (n : nat) :
  map f (repeat x n) = repeat (f x) n.
Proof. induction n; simpl; congruence. Qed.

Lemma Forall2_map_raw
  (ip_address : string -> option Urllib.ip_version)
  (nfkc_rejects : string -> bool) (primary_domain : string)
  (lines : list string) (entries : list ScriptEntry) :
  Forall2 (entry_of ip_address nfkc_rejects primary_domain) lines entries ->
  map raw entries = map strip lines.
Proof.
  induction 1 as [|l e ls es (u & s & h & p & _ & _ & ->) _ IH];
    [reflexivity|].
  cbn [map]. now rewrite IH.
Qed.

(** C10.  The run appends one record per selected line (a line that is not
    skipped and whose extraction gives a URL), in input order and without
    deduplication: a completed run has as many records as selected lines,
    record by record the lines' own; the run completes when the URLs of the
    selected lines parse; and a line given [n] times gives its record [n]
    times, which the category count of the summary counts [n] times. *)
Theorem no_deduplication
  (ip_address : string -> option Urllib.ip_version)
  (nfkc_rejects : string -> bool) (primary_domain : string) :
  (forall file_lines entries,
      process_scripts ip_address nfkc_rejects file_lines primary_domain
      = Ok entries ->
      Forall2 (entry_of ip_address nfkc_rejects primary_domain)
        (filter selected file_lines) entries
      /\ map raw entries = map strip (filter selected file_lines)
      /\ List.length entries = List.length (filter selected file_lines))
  /\ (forall file_lines,
         (forall line url,
             In line file_lines -> selected line = true ->
             extract_url_from_line line = Some url ->
             exists r, normalize_url ip_address nfkc_rejects url = Ok r) ->
         exists entries,
           process_scripts ip_address nfkc_rejects file_lines primary_domain
           = Ok entries)
  /\ (forall line e n,
         process_scripts ip_address nfkc_rejects [line]%list primary_domain
         = Ok [e]%list ->
         process_scripts ip_address nfkc_rejects (repeat line n)
           primary_domain
         = Ok (repeat e n)
         /\ total (repeat e n) = n
         /\ counter_get (cat_counts (repeat e n)) (category e) = n)
  /\ (forall entries cat,
         counter_get (cat_counts entries) cat
         = count_occ string_dec (map category entries) cat)
  /\ process_scripts ip_address nfkc_rejects
       [ "https://www.google-analytics.com/ga.js";
         "https://www.google-analytics.com/ga.js" ]%list "example.com"
     = Ok [ mkScriptEntry
              "https://www.google-analytics.com/ga.js"
              "https://www.google-analytics.com/ga.js"
              "https" "www.google-analytics.com" "/ga.js"
              "analytics" "google-analytics.com" false [];
            mkScriptEntry
              "https://www.google-analytics.com/ga.js"
              "https://www.google-analytics.com/ga.js"
              "https" "www.google-analytics.com" "/ga.js"
              "analytics" "google-analytics.com" false [] ]%list.
Proof.
  split; [|split; [|split; [|split]]].
  - intros file_lines entries Hrun.
    apply process_scripts_inv in Hrun.
    split; [assumption|]. split.
    + eapply Forall2_map_raw; eauto.
    + symmetry. eapply Forall2_length; eauto.
  - intros file_lines Hok. unfold process_scripts.
    apply process_loop_ok. unfold read_input_lines.
    intros line url Hin Hsel Hext.
    apply in_map_iff in Hin as (l & <- & Hin).
    rewrite selected_read_line in Hsel.
    rewrite extract_url_read_line in Hext. eauto.
  - intros line e n Hone. split; [|split].
    + unfold process_scripts, read_input_lines in *.
      rewrite map_repeat_eq. cbn [map] in Hone.
      set (l := rstrip_chars (String Urllib.LF EmptyString) line) in *.
      rewrite process_loop_cons in Hone.
      destruct (selected l) eqn:Hsel; [|discriminate].
      destruct (extract_url_from_line l) as [u|] eqn:Hext; [|discriminate].
      destruct (normalize_url ip_address nfkc_rejects u)
        as [[[s h] p]|x] eqn:Hn; [|discriminate].
      cbn [bind process_loop app] in Hone. injection Hone as <-.
      assert (H : forall entries,
                 process_loop ip_address nfkc_rejects primary_domain
                   (repeat l n) entries
                 = Ok (entries
                       ++ repeat (entry_from primary_domain (strip l) u s h p)
                            n)%list).
      { induction n as [|n IH]; intros entries; cbn [repeat].
        - cbn. now rewrite app_nil_r.
        - rewrite process_loop_cons, Hsel, Hext, Hn. cbn [bind].
          rewrite IH, <- app_assoc. reflexivity. }
      apply H.
    + unfold total. apply repeat_length.
    + unfold cat_counts.
      rewrite counter_get_Counter, map_repeat_eq.
      apply count_occ_repeat_same.
  - intros entries cat. apply counter_get_Counter.
  - vm_compute. reflexivity.
Qed.

(** ** The URL normaliser *)

Section AllChars.

Variable P : ascii -> bool.

Lemma all_chars_append (a b : string) :
  all_chars P (a ++ b) = all_chars P a && all_chars P b.
Proof.
  induction a as [|c a IH]; simpl; [reflexivity|].
  now rewrite IH, andb_assoc.
Qed.

Lemma all_chars_take (n : nat) (s : string) :
  all_chars P s = true -> all_chars P (take n s) = true.
Proof.
  revert s; induction n; intros [|c s]; simpl; auto.
  intros H. apply andb_true_iff in H as [-> H]. simpl. auto.
Qed.

Lemma all_chars_drop (n : nat) (s : string) :
  all_chars P s = true -> all_chars P (drop n s) = true.
Proof.
  revert s; induction n; intros [|c s]; simpl; auto.
  intros H. apply andb_true_iff in H as [_ H]. auto.
Qed.

Lemma all_chars_lstrip_by (p : ascii -> bool) (s : string) :
  all_chars P s = true -> all_chars P (lstrip_by p s) = true.
Proof.
  induction s as [|c s IH]; simpl; auto.
  intros H. destruct (p c); [|assumption].
  apply andb_true_iff in H as [_ H]. auto.
Qed.

Lemma all_chars_remove_char (d : ascii) (s : string) :
  all_chars P s = true -> all_chars P (remove_char d s) = true.
Proof.
  induction s as [|c s IH]; simpl; auto.
  intros H. apply andb_true_iff in H as [Hc H].
  destruct (c =? d)%char; simpl; [auto|]. rewrite Hc. auto.
Qed.

Lemma all_chars_splitnetloc (url : string) (start : nat) :
  all_chars P url = true ->
  all_chars P (fst (Urllib._splitnetloc url start)) = true.
Proof.
  intros H. unfold Urllib._splitnetloc. cbn [fst].
  now apply all_chars_take, all_chars_drop.
Qed.

End AllChars.

Lemma contains_char_false (d : ascii) (s : string) :
  contains (String d EmptyString) s = false
  <-> all_chars (is_not d) s = true.
Proof.
  unfold is_not. induction s as [|c s IH]; simpl; [tauto|].
  rewrite andb_true_r, orb_false_iff, andb_true_iff, IH.
  rewrite (Ascii.eqb_sym d c), negb_true_iff. reflexivity.
Qed.

Lemma isascii_all_chars (s : string) : isascii s = all_chars isascii_char s.
Proof. induction s; simpl; congruence. Qed.

Lemma lower_char_idem (c : ascii) : lower_char (lower_char c) = lower_char c.
Proof. destruct c as [[] [] [] [] [] [] [] []]; reflexivity. Qed.

Lemma lower_idem (s : string) : lower (lower s) = lower s.
Proof.
  induction s as [|c s IH]; simpl; [reflexivity|].
  now rewrite lower_char_idem, IH.
Qed.

Section NormalizeFacts.

Variable ip_address : string -> option Urllib.ip_version.
Variable nfkc_rejects : string -> bool.

Lemma checknetloc_ok (netloc : string) :
  isascii netloc = true \/ (forall n, nfkc_rejects n = false) ->
  Urllib._checknetloc nfkc_rejects netloc = Ok tt.
Proof.
  unfold Urllib._checknetloc. intros [-> | H].
  - now rewrite orb_true_r.
  - rewrite H. now destruct (is_empty netloc || isascii netloc).
Qed.

(** The parser returns when the text has no square bracket and passes the
    normalisation test. *)
Lemma urlsplit_ok (url : string) :
  contains "[" url = false ->
  contains "]" url = false ->
  isascii url = true \/ (forall n, nfkc_rejects n = false) ->
  exists r, Urllib.urlsplit ip_address nfkc_rejects url = Ok r.
Proof.
  intros HL HR HA.
  apply contains_char_false in HL, HR.
  unfold Urllib.urlsplit.
  set (u1 := remove_char Urllib.LF _).
  assert (H1 : forall P, all_chars P url = true -> all_chars P u1 = true).
  { intros P HP. unfold u1.
    now repeat apply all_chars_remove_char; apply all_chars_lstrip_by. }
  set (sch := match find_char ":" u1, u1 with
              | Some i, String c0 _ => _
              | _, _ => _
              end).
  assert (H2 : forall P, all_chars P url = true ->
                         all_chars P (snd sch) = true).
  { intros P HP. apply H1 in HP. unfold sch.
    destruct (find_char ":" u1) as [i|]; [|assumption].
    destruct u1 as [|c0 u] eqn:E; [assumption|].
    destruct ((0 <? i)%nat && ascii_alpha c0
              && Urllib.all_scheme_chars (take i (String c0 u)));
      cbn [snd]; [|assumption].
    now apply all_chars_drop. }
  destruct sch as [scheme u2]. cbn [snd] in H2.
  destruct (take 2 u2 =? "//").
  - pose proof (fun P HP => all_chars_splitnetloc P u2 2 (H2 P HP)) as H3.
    destruct (Urllib._splitnetloc u2 2) as [netloc u3]. cbn [fst] in H3.
    apply H3 in HL, HR. apply contains_char_false in HL, HR.
    rewrite HL, HR. cbn [andb orb negb bind].
    rewrite checknetloc_ok.
    + destruct (if contains "#" u3 then _ else _) as [u4 fragment].
      destruct (if contains "?" u4 then _ else _) as [u5 query].
      cbn [bind]. eauto.
    + destruct HA as [HA | HA]; [left|now right].
      rewrite isascii_all_chars in *. auto.
  - cbn [bind].
    destruct (if contains "#" u2 then _ else _) as [u4 fragment].
    destruct (if contains "?" u4 then _ else _) as [u5 query].
    cbn [bind Urllib._checknetloc is_empty orb]. eauto.
Qed.

Lemma normalize_url_ok (url : string) :
  contains "[" url = false ->
  contains "]" url = false ->
  isascii url = true \/ (forall n, nfkc_rejects n = false) ->
  exists scheme host path,
    normalize_url ip_address nfkc_rejects url = Ok (scheme, host, path)
    /\ path <> "" /\ lower scheme = scheme /\ lower host = host.
Proof.
  intros HL HR HA. unfold normalize_url, Urllib.urlparse.
  set (u := if startswith "//" url then _ else _).
  destruct (urlsplit_ok u) as ([[[[scheme netloc] p] query] fragment] & ->).
  - apply contains_char_false. apply contains_char_false in HL.
    unfold u. destruct (startswith "//" url); [|assumption].
    rewrite all_chars_append, HL. reflexivity.
  - apply contains_char_false. apply contains_char_false in HR.
    unfold u. destruct (startswith "//" url); [|assumption].
    rewrite all_chars_append, HR. reflexivity.
  - destruct HA as [HA | HA]; [left|now right].
    rewrite isascii_all_chars in *.
    unfold u. destruct (startswith "//" url); [|assumption].
    rewrite all_chars_append, HA. reflexivity.
  - cbn [bind].
    destruct (if existsb (String.eqb scheme) Urllib.uses_params
                 && contains ";" p then _ else _) as [p' params].
    cbn [bind Urllib.scheme Urllib.netloc Urllib.path].
    do 3 eexists. split; [reflexivity|]. split; [|split].
    + destruct p'; discriminate.
    + apply lower_idem.
    + apply lower_idem.
Qed.

End NormalizeFacts.

(** C5, as stated, fails: the library parser raises [ValueError] on a netloc
    with an unmatched square bracket, the normaliser has no handler, and the
    run is aborted although a well-formed line follows. *)
Lemma normalize_url_raises_on_open_bracket :
  (forall ip_address nfkc_rejects,
      normalize_url ip_address nfkc_rejects "http://[" = Raise ValueError)
  /\ (forall ip_address nfkc_rejects primary_domain,
         process_scripts ip_address nfkc_rejects
           [ "http://["; "https://www.google-analytics.com/ga.js" ]%list
           primary_domain
         = Raise ValueError).
Proof. split; intros; vm_compute; reflexivity. Qed.

(** C5, amended.  The normaliser returns a lower-cased scheme, a lower-cased
    host and a non-empty path for every URL without square brackets that
    passes the parser's normalisation test (every ASCII URL does); it raises
    only when the URL holds a square bracket or a non-ASCII character.  The
    exception is not handled: when the URL of a selected line raises, the
    whole run raises, whatever the other lines are. *)
Theorem normalize_url_returns_or_aborts
  (ip_address : string -> option Urllib.ip_version)
  (nfkc_rejects : string -> bool) :
  (forall url,
      contains "[" url = false ->
      contains "]" url = false ->
      isascii url = true \/ (forall n, nfkc_rejects n = false) ->
      exists scheme host path,
        normalize_url ip_address nfkc_rejects url = Ok (scheme, host, path)
        /\ path <> "" /\ lower scheme = scheme /\ lower host = host)
  /\ (forall url e,
         normalize_url ip_address nfkc_rejects url = Raise e ->
         contains "[" url = true \/ contains "]" url = true
         \/ isascii url = false)
  /\ (forall file_lines primary_domain line url e,
         In line file_lines ->
         selected line = true ->
         extract_url_from_line line = Some url ->
         normalize_url ip_address nfkc_rejects url = Raise e ->
         process_scripts ip_address nfkc_rejects file_lines primary_domain
         = Raise ValueError)
  /\ normalize_url ip_address nfkc_rejects "//Example.COM"
     = Ok ("https", "example.com", "/")
  /\ normalize_url ip_address nfkc_rejects "not a url"
     = Ok ("", "", "not a url")
  /\ normalize_url ip_address nfkc_rejects "https://a]/x.js"
     = Raise ValueError.
Proof.
  split; [|split; [|split; [|repeat split; vm_compute; reflexivity]]].
  - apply normalize_url_ok.
  - intros url e Hraise.
    destruct (contains "[" url) eqn:HL; [now left|].
    destruct (contains "]" url) eqn:HR; [now right; left|].
    destruct (isascii url) eqn:HA; [|now right; right].
    destruct (normalize_url_ok ip_address nfkc_rejects url HL HR
                (or_introl HA)) as (s & h & p & E & _).
    congruence.
  - intros file_lines primary_domain line url e Hin Hsel Hext Hn.
    unfold process_scripts.
    apply (process_loop_raise ip_address nfkc_rejects primary_domain _
             (rstrip_chars (String Urllib.LF EmptyString) line) url e).
    + unfold read_input_lines. now apply in_map.
    + now rewrite selected_read_line.
    + now rewrite extract_url_read_line.
    + assumption.
Qed.

(** ** The regular expression, declaratively *)

Lemma span_nonquote_spec (s g rest : string) :
  Re.span_nonquote s = (g, rest) ->
  s = g ++ rest
  /\ all_chars (fun c => negb (Re.is_quote c)) g = true
  /\ (forall q r, rest = String q r -> Re.is_quote q = true).
Proof.
  revert g rest. induction s as [|c s IH]; intros g rest; simpl.
  - intros [= <- <-]. repeat split. discriminate.
  - destruct (Re.is_quote c) eqn:Q.
    + intros [= <- <-]. repeat split. now intros q r [= <- _].
    + destruct (Re.span_nonquote s) as [g' rest'].
      intros [= <- <-]. destruct (IH _ _ eq_refl) as (-> & Hg & Hr).
      simpl. rewrite Q. repeat split; assumption.
Qed.

Lemma span_nonquote_complete (g r : string) (q : ascii) :
  all_chars (fun c => negb (Re.is_quote c)) g = true ->
  Re.is_quote q = true ->
  Re.span_nonquote (g ++ String q r) = (g, String q r).
Proof.
  intros Hg Hq. induction g as [|c g IH]; simpl in *.
  - now rewrite Hq.
  - apply andb_true_iff in Hg as [Hc Hg].
    apply negb_true_iff in Hc. rewrite Hc. now rewrite IH.
Qed.

(** A match at the start of [s] is a text [src=], in any case, an opening
    quote, a non-empty group without quotes, and a closing quote; the group
    is determined by [s]. *)
Lemma match_here_spec (s g : string) :
  Re.match_here s = Some g
  <-> exists a b c q1 q2 rest,
        s = String a (String b (String c (String "=" (String q1
              (g ++ String q2 rest)))))
        /\ lower_char a = "s"%char /\ lower_char b = "r"%char
        /\ lower_char c = "c"%char
        /\ Re.is_quote q1 = true /\ Re.is_quote q2 = true
        /\ g <> ""
        /\ all_chars (fun c => negb (Re.is_quote c)) g = true.
Proof.
  split.
  - destruct s as [|a [|b [|c [|e [|q1 tail]]]]]; try discriminate.
    unfold Re.match_here, Re.ci.
    destruct ((lower_char a =? "s")%char && (lower_char b =? "r")%char
              && (lower_char c =? "c")%char && (e =? "=")%char
              && Re.is_quote q1) eqn:B; [|discriminate].
    repeat (apply andb_true_iff in B as [B ?]).
    destruct (Re.span_nonquote tail) as [g' rest'] eqn:Sp.
    destruct g' as [|g0 g']; [discriminate|].
    destruct rest' as [|q2 rest']; [discriminate|].
    intros [= <-].
    destruct (span_nonquote_spec _ _ _ Sp) as (-> & Hg & Hq).
    exists a, b, c, q1, q2, rest'.
    repeat match goal with
           | H : (_ =? _)%char = true |- _ => apply Ascii.eqb_eq in H
           end.
    subst e. repeat split; auto; try discriminate. eapply Hq; reflexivity.
  - intros (a & b & c & q1 & q2 & rest & -> & Ha & Hb & Hc & H1 & H2
             & Hne & Hg).
    unfold Re.match_here, Re.ci.
    rewrite Ha, Hb, Hc, H1, !Ascii.eqb_refl. cbn [andb].
    rewrite (span_nonquote_complete g rest q2 Hg H2).
    destruct g; [congruence|reflexivity].
Qed.

(** [search] returns the group of the leftmost match. *)
Lemma search_spec (s g : string) :
  Re.search s = Some g
  <-> exists before here,
        s = before ++ here
        /\ Re.match_here here = Some g
        /\ (forall b1 b2, before = b1 ++ b2 -> b2 <> "" ->
                          Re.match_here (b2 ++ here) = None).
Proof.
  split.
  - induction s as [|c s IH].
    + simpl. discriminate.
    + cbn [Re.search].
      destruct (Re.match_here (String c s)) as [g'|] eqn:M.
      * intros [= ->]. exists "", (String c s). repeat split; auto.
        intros [|? ?] [|? ?]; simpl; congruence.
      * intros H. destruct (IH H) as (before & here & -> & Hm & Hleft).
        exists (String c before), here. repeat split; auto.
        intros [|x b1] b2 E Hne; simpl in E.
        -- subst b2. exact M.
        -- injection E as _ E. eauto.
  - intros (before & here & -> & Hm & Hleft).
    induction before as [|c before IH].
    + simpl. destruct here; cbn [Re.search]; now rewrite Hm.
    + assert (M : Re.match_here (String c before ++ here) = None)
        by (apply (Hleft "" (String c before) eq_refl); discriminate).
      cbn [append Re.search] in *. rewrite M.
      apply IH. intros b1 b2 E Hne.
      apply (Hleft (String c b1) b2); [now rewrite E|assumption].
Qed.

(** * Further properties of the code *)

(** ** Line extractor *)

Lemma lstrip_by_all (p : ascii -> bool) (lead s : string) :
  all_chars p lead = true -> lstrip_by p (lead ++ s) = lstrip_by p s.
Proof.
  induction lead as [|c lead IH]; simpl; [reflexivity|].
  intros H. apply andb_true_iff in H as [-> H]. auto.
Qed.

Lemma rstrip_by_keep (p : ascii -> bool) (a b : string) (c : ascii) :
  p c = false ->
  rstrip_by p (a ++ String c b) = a ++ String c (rstrip_by p b).
Proof.
  intros Hc. induction a as [|x a IH]; simpl.
  - now rewrite Hc, andb_false_r.
  - now rewrite IH; destruct a.
Qed.

Lemma quote_not_space (q : ascii) : Re.is_quote q = true -> isspace q = false.
Proof.
  unfold Re.is_quote. intros H.
  apply orb_true_iff in H as [H|H]; apply Ascii.eqb_eq in H; now subst q.
Qed.

Lemma contains_startswith (sub s : string) :
  startswith sub s = true -> contains sub s = true.
Proof. intros H. destruct s; simpl; now rewrite H. Qed.

Lemma search_skip (c : ascii) (s : string) :
  Re.match_here (String c s) = None ->
  Re.search (String c s) = Re.search s.
Proof. intros H. cbn [Re.search]. now rewrite H. Qed.

Lemma search_here (s g : string) :
  Re.match_here s = Some g -> Re.search s = Some g.
Proof. intros H. destruct s; cbn [Re.search]; now rewrite H. Qed.

(** A script tag whose first attribute is [src]: the extractor returns the
    quoted value, trimmed, whatever follows the closing quote and whatever
    white space precedes the tag. *)
Theorem extract_script_tag_src (lead tail value : string) (q1 q2 : ascii) :
  all_chars isspace lead = true ->
  Re.is_quote q1 = true ->
  Re.is_quote q2 = true ->
  value <> "" ->
  all_chars (fun c => negb (Re.is_quote c)) value = true ->
  extract_url_from_line
    (lead ++ "<script src=" ++ String q1 (value ++ String q2 tail))
  = Some (strip value).
Proof.
  intros Hlead H1 H2 Hne Hval.
  assert (Hstrip :
            strip (lead ++ "<script src="
                   ++ String q1 (value ++ String q2 tail))
            = "<script src="
              ++ String q1 (value ++ String q2 (rstrip_by isspace tail))).
  { unfold strip. rewrite lstrip_by_all by assumption.
    change (lstrip_by isspace
              ("<script src=" ++ String q1 (value ++ String q2 tail)))
      with (("<script src=" ++ String q1 value) ++ String q2 tail).
    rewrite rstrip_by_keep by now apply quote_not_space.
    reflexivity. }
  unfold extract_url_from_line. rewrite Hstrip. cbn [append is_empty].
  rewrite contains_startswith by reflexivity.
  do 8 (rewrite search_skip by reflexivity).
  rewrite (search_here _ value); [reflexivity|].
  apply match_here_spec.
  exists "s"%char, "r"%char, "c"%char, q1, q2, (rstrip_by isspace tail).
  repeat split; auto.
Qed.

(** The statement at a tag with a padded, single-quoted value. *)
Lemma extract_script_tag_src_witness :
  extract_url_from_line "  <script src=' https://a.example/x.js ' async>"
  = Some "https://a.example/x.js".
Proof.
  apply (extract_script_tag_src "  " " async>" " https://a.example/x.js "
           "'"%char "'"%char); try reflexivity; discriminate.
Defined.

Lemma occurs_refl (s : string) : occurs s s.
Proof. exists "", "". simpl. induction s; simpl; congruence. Qed.

Lemma append_assoc (a b c : string) : (a ++ b) ++ c = a ++ (b ++ c).
Proof. induction a; simpl; congruence. Qed.

Lemma occurs_trans (a b c : string) : occurs a b -> occurs b c -> occurs a c.
Proof.
  intros (x & y & ->) (u & v & ->).
  exists (u ++ x), (y ++ v). now rewrite !append_assoc.
Qed.

Lemma occurs_strip (s : string) : occurs (strip s) s.
Proof.
  unfold strip.
  destruct (lstrip_by_spec isspace s) as (front & E & _).
  destruct (rstrip_by_spec isspace (lstrip_by isspace s)) as (tail & E' & _).
  exists front, tail. now rewrite <- E', <- E.
Qed.



Lemma occurs_search (s g : string) : Re.search s = Some g -> occurs g s.
Proof.
  intros H. apply search_spec in H as (before & here & -> & Hm & _).
  apply match_here_spec in Hm
    as (a & b & c & q1 & q2 & rest & -> & _).
  exists (before
          ++ String a (String b (String c (String "=" (String q1 ""))))),
    (String q2 rest).
  rewrite !append_assoc. reflexivity.
Qed.

(** What the extractor returns, for the lemmas on the records. *)
Lemma extract_result_facts (line url : string) :
  extract_url_from_line line = Some url ->
  strip url = url /\ occurs url line.
Proof.
  unfold extract_url_from_line.
  destruct (is_empty (strip line)); [discriminate|].
  destruct (if contains "<script" (lower (strip line))
            then Re.search (strip line) else None) as [g|] eqn:E.
  - intros [= <-]. split; [apply strip_idem|].
    destruct (contains "<script" (lower (strip line))); [|discriminate].
    apply occurs_search in E.
    eapply occurs_trans; [apply occurs_strip|].
    eapply occurs_trans; [exact E|apply occurs_strip].
  - destruct (startswith_any _ (strip line)); [|discriminate].
    intros [= <-]. split; [apply strip_idem|apply occurs_strip].
Qed.

(** Whatever the extractor returns is trimmed and is a piece of the line:
    it never builds a URL that the line does not hold. *)
Theorem extract_url_trimmed_substring (line url : string) :
  extract_url_from_line line = Some url ->
  strip url = url /\ occurs url line.
Proof. exact (extract_result_facts line url). Qed.

(** The statement at a padded protocol-relative URL. *)
Lemma extract_url_trimmed_substring_witness :
  strip "//cdn.example/x.js" = "//cdn.example/x.js"
  /\ occurs "//cdn.example/x.js" "  //cdn.example/x.js  ".
Proof.
  exact (extract_url_trimmed_substring "  //cdn.example/x.js  "
           "//cdn.example/x.js" eq_refl).
Defined.

(** ** Components returned by the normaliser *)

Lemma take_before_find (c : ascii) (s : string) :
  forall m k,
    find_char c s = Some k -> m <= k ->
    all_chars (is_not c) (take m s) = true.
Proof.
  unfold is_not.
  induction s as [|d s IH]; intros m k; simpl; [discriminate|].
  destruct (d =? c)%char eqn:E.
  - intros [= <-] Hm. now replace m with 0 by lia.
  - destruct (find_char c s) as [k'|] eqn:F; [|discriminate].
    intros [= <-] Hm. destruct m as [|m]; [reflexivity|].
    simpl. rewrite E. simpl. eapply IH; [reflexivity|lia].
Qed.

Lemma find_char_none (c : ascii) (s : string) :
  find_char c s = None -> all_chars (is_not c) s = true.
Proof.
  unfold is_not.
  induction s as [|d s IH]; simpl; [reflexivity|].
  destruct (d =? c)%char; [discriminate|].
  destruct (find_char c s); [discriminate|]. auto.
Qed.

Lemma split_once_fst_clean (c : ascii) (s : string) :
  all_chars (is_not c) (fst (split_once c s)) = true.
Proof.
  unfold split_once. destruct (find_char c s) as [i|] eqn:F; cbn [fst].
  - eapply take_before_find; eauto.
  - now apply find_char_none.
Qed.

Lemma split_once_fst_all (P : ascii -> bool) (c : ascii) (s : string) :
  all_chars P s = true -> all_chars P (fst (split_once c s)) = true.
Proof.
  intros H. unfold split_once. destruct (find_char c s); cbn [fst]; auto.
  now apply all_chars_take.
Qed.

Lemma splitparams_fst_all (P : ascii -> bool) (s : string) :
  all_chars P s = true -> all_chars P (fst (Urllib._splitparams s)) = true.
Proof.
  intros H. unfold Urllib._splitparams, drop_last.
  destruct (contains "/" s).
  - destruct (find_char_from ";" _ s); cbn [fst]; auto.
    now apply all_chars_take.
  - destruct (find_char ";" s); cbn [fst]; now apply all_chars_take.
Qed.

(** The network location stops before the first slash, question mark or
    hash. *)
Lemma splitnetloc_fst_clean (url : string) (start : nat) (c : ascii) :
  c = "/"%char \/ c = "?"%char \/ c = "#"%char ->
  all_chars (is_not c) (fst (Urllib._splitnetloc url start)) = true.
Proof.
  intros Hc. unfold Urllib._splitnetloc. cbn [fst fold_left].
  unfold find_char_from.
  destruct (find_char c (drop start url)) as [k|] eqn:F.
  - eapply take_before_find; [exact F|].
    destruct Hc as [-> | [-> | ->]]; rewrite F; cbn [option_map];
      repeat match goal with
             | |- context [find_char ?d (drop start url)] =>
                 destruct (find_char d (drop start url)); cbn [option_map]
             end; lia.
  - now apply all_chars_take, find_char_none.
Qed.

Lemma lower_char_fixes (d c : ascii) :
  d = "/"%char \/ d = "?"%char \/ d = "#"%char \/ d = "."%char ->
  lower_char c = d -> c = d.
Proof.
  intros [-> | [-> | [-> | ->]]];
    destruct c as [[] [] [] [] [] [] [] []]; vm_compute; congruence.
Qed.

Lemma lower_is_not (d : ascii) (s : string) :
  d = "/"%char \/ d = "?"%char \/ d = "#"%char \/ d = "."%char ->
  all_chars (is_not d) s = true -> all_chars (is_not d) (lower s) = true.
Proof.
  intros Hd. unfold is_not. induction s as [|c s IH]; simpl; [reflexivity|].
  intros H. apply andb_true_iff in H as [Hc H]. rewrite (IH H), andb_true_r.
  apply negb_true_iff. apply negb_true_iff in Hc.
  apply Ascii.eqb_neq. apply Ascii.eqb_neq in Hc.
  intros E. apply Hc. now apply lower_char_fixes.
Qed.

Section ComponentFacts.

Variable ip_address : string -> option Urllib.ip_version.
Variable nfkc_rejects : string -> bool.

Lemma urlsplit_components (url scheme netloc path query fragment : string) :
  Urllib.urlsplit ip_address nfkc_rejects url
  = Ok (scheme, netloc, path, query, fragment) ->
  lower scheme = scheme
  /\ (forall c, c = "/"%char \/ c = "?"%char \/ c = "#"%char ->
                all_chars (is_not c) netloc = true)
  /\ all_chars (is_not "?") path = true
  /\ all_chars (is_not "#") path = true.
Proof.
  unfold Urllib.urlsplit.
  set (u1 := remove_char Urllib.LF _).
  set (sch := match find_char ":" u1, u1 with
              | Some i, String c0 _ => _
              | _, _ => _
              end).
  assert (Hs : lower (fst sch) = fst sch).
  { unfold sch. destruct (find_char ":" u1) as [i|]; [|reflexivity].
    destruct u1 as [|c0 u]; [reflexivity|].
    destruct ((0 <? i)%nat && ascii_alpha c0
              && Urllib.all_scheme_chars (take i (String c0 u)));
      cbn [fst]; [apply lower_idem|reflexivity]. }
  destruct sch as [sc u2]. cbn [fst] in Hs.
  assert (Hpath : forall u,
             all_chars (is_not "?")
               (fst (if contains "?"
                          (fst (if contains "#" u then split_once "#" u
                                else (u, EmptyString)))
                     then split_once "?"
                            (fst (if contains "#" u then split_once "#" u
                                  else (u, EmptyString)))
                     else (fst (if contains "#" u then split_once "#" u
                                else (u, EmptyString)), EmptyString)))
             = true
             /\ all_chars (is_not "#")
                  (fst (if contains "?"
                          (fst (if contains "#" u then split_once "#" u
                                else (u, EmptyString)))
                     then split_once "?"
                            (fst (if contains "#" u then split_once "#" u
                                  else (u, EmptyString)))
                     else (fst (if contains "#" u then split_once "#" u
                                else (u, EmptyString)), EmptyString)))
                = true).
  { intros u.
    assert (H4 : all_chars (is_not "#")
                   (fst (if contains "#" u then split_once "#" u
                         else (u, EmptyString))) = true).
    { destruct (contains "#" u) eqn:C; [apply split_once_fst_clean|].
      now apply contains_char_false. }
    set (u4 := fst (if contains "#" u then _ else _)) in *.
    destruct (contains "?" u4) eqn:C; cbn [fst]; split.
    - apply split_once_fst_clean.
    - now apply split_once_fst_all.
    - now apply contains_char_false.
    - assumption. }
  destruct (take 2 u2 =? "//").
  - pose proof (splitnetloc_fst_clean u2 2) as Hn.
    destruct (Urllib._splitnetloc u2 2) as [nl u3]. cbn [fst] in Hn.
    destruct ((contains "[" nl && negb (contains "]" nl))
              || (contains "]" nl && negb (contains "[" nl)));
      [discriminate|].
    destruct (if contains "[" nl && contains "]" nl
              then Urllib._check_bracketed_netloc ip_address nl
              else Ok tt) as [[]|]; [|discriminate].
    cbn [bind]. specialize (Hpath u3).
    destruct (if contains "#" u3 then _ else _) as [u4 fr]. cbn [fst] in Hpath.
    destruct (if contains "?" u4 then _ else _) as [u5 qu]. cbn [fst] in Hpath.
    destruct (Urllib._checknetloc nfkc_rejects nl) as [[]|]; [|discriminate].
    cbn [bind]. intros [= <- <- <- <- <-]. tauto.
  - cbn [bind]. specialize (Hpath u2).
    destruct (if contains "#" u2 then _ else _) as [u4 fr]. cbn [fst] in Hpath.
    destruct (if contains "?" u4 then _ else _) as [u5 qu]. cbn [fst] in Hpath.
    destruct (Urllib._checknetloc nfkc_rejects "") as [[]|]; [|discriminate].
    cbn [bind]. intros [= <- <- <- <- <-].
    split; [assumption|]. split; [reflexivity|]. tauto.
Qed.

(** The components of a returned triple, for the lemmas on the records. *)
Lemma normalize_result_facts (url scheme host path : string) :
  normalize_url ip_address nfkc_rejects url = Ok (scheme, host, path) ->
  lower scheme = scheme
  /\ lower host = host
  /\ contains "/" host = false
  /\ contains "?" host = false
  /\ contains "#" host = false
  /\ path <> ""
  /\ contains "?" path = false
  /\ contains "#" path = false.
Proof.
  unfold normalize_url, Urllib.urlparse.
  set (u := if startswith "//" url then _ else _).
  destruct (Urllib.urlsplit ip_address nfkc_rejects u)
    as [[[[[sc nl] p] qu] fr]|] eqn:E; [|discriminate].
  apply urlsplit_components in E as (_ & Hnl & Hq & Hf).
  cbn [bind].
  assert (Hp : all_chars (is_not "?")
                 (fst (if existsb (String.eqb sc) Urllib.uses_params
                          && contains ";" p
                       then Urllib._splitparams p else (p, EmptyString)))
               = true
               /\ all_chars (is_not "#")
                    (fst (if existsb (String.eqb sc) Urllib.uses_params
                             && contains ";" p
                          then Urllib._splitparams p else (p, EmptyString)))
                  = true).
  { destruct (existsb (String.eqb sc) Urllib.uses_params && contains ";" p);
      cbn [fst]; [|tauto].
    split; now apply splitparams_fst_all. }
  destruct (if existsb (String.eqb sc) Urllib.uses_params && contains ";" p
            then _ else _) as [p' pa]. cbn [fst] in Hp.
  cbn [bind Urllib.scheme Urllib.netloc Urllib.path].
  intros [= <- <- <-].
  assert (Hnl' : forall c, c = "/"%char \/ c = "?"%char \/ c = "#"%char ->
                   contains (String c EmptyString)
                     (lower (if is_empty nl then EmptyString else nl))
                   = false).
  { intros c Hc. apply contains_char_false, lower_is_not; [tauto|].
    destruct nl; [reflexivity|]. now apply Hnl. }
  split; [apply lower_idem|]. split; [apply lower_idem|].
  split; [apply Hnl'; tauto|]. split; [apply Hnl'; tauto|].
  split; [apply Hnl'; tauto|].
  destruct p' as [|c p']; cbn [is_empty].
  - repeat split; try reflexivity. discriminate.
  - split; [discriminate|]. split; apply contains_char_false; tauto.
Qed.

(** Whenever the normaliser returns, the scheme and the host are in lower
    case, the host holds no slash, question mark or hash, and the path is not
    empty and holds neither the query nor the fragment. *)
Theorem normalize_url_components (url scheme host path : string) :
  normalize_url ip_address nfkc_rejects url = Ok (scheme, host, path) ->
  lower scheme = scheme
  /\ lower host = host
  /\ contains "/" host = false
  /\ contains "?" host = false
  /\ contains "#" host = false
  /\ path <> ""
  /\ contains "?" path = false
  /\ contains "#" path = false.
Proof. exact (normalize_result_facts url scheme host path). Qed.

End ComponentFacts.

(** The statement at a URL with user information, port, query and
    fragment. *)
Lemma normalize_url_components_witness :
  lower "https" = "https"
  /\ lower "user@example.com:8080" = "user@example.com:8080"
  /\ contains "/" "user@example.com:8080" = false
  /\ contains "?" "user@example.com:8080" = false
  /\ contains "#" "user@example.com:8080" = false
  /\ "/a/b.js" <> ""
  /\ contains "?" "/a/b.js" = false
  /\ contains "#" "/a/b.js" = false.
Proof.
  exact (normalize_url_components ip_address_lenient nfkc_never_rejects
           "HTTPS://User@Example.COM:8080/a/b.js?v=1#top"
           "https" "user@example.com:8080" "/a/b.js" eq_refl).
Defined.

Section SchemeFacts.

Variable ip_address : string -> option Urllib.ip_version.
Variable nfkc_rejects : string -> bool.

(** A protocol-relative URL, which reaches the normaliser from the [src]
    attribute of a script tag, is given the scheme [https]. *)
Theorem normalize_url_protocol_relative (url scheme host path : string) :
  startswith "//" url = true ->
  normalize_url ip_address nfkc_rejects url = Ok (scheme, host, path) ->
  scheme = "https".
Proof.
  intros Hstart. destruct (startswith_inv _ _ Hstart) as [rest ->].
  unfold normalize_url. rewrite Hstart.
  unfold Urllib.urlparse, Urllib.urlsplit.
  set (u1 := remove_char Urllib.LF _).
  set (r := remove_char Urllib.LF
              (remove_char Urllib.CR (remove_char Urllib.TAB rest))).
  assert (E : u1 = "https://" ++ r) by reflexivity.
  clearbody u1. subst u1.
  set (sch := match find_char ":" ("https://" ++ r), ("https://" ++ r) with
              | Some i, String c0 _ => _
              | _, _ => _
              end).
  assert (Hs : sch = ("https", "//" ++ r)) by reflexivity.
  rewrite Hs. clear sch Hs.
  destruct (if take 2 ("//" ++ r) =? "//" then _ else _) as [[nl u3]|];
    [|discriminate].
  cbn [bind].
  destruct (if contains "#" u3 then _ else _) as [u4 fr].
  destruct (if contains "?" u4 then _ else _) as [u5 qu].
  destruct (Urllib._checknetloc nfkc_rejects nl) as [[]|]; [|discriminate].
  cbn [bind].
  destruct (if existsb (String.eqb "https") Urllib.uses_params
               && contains ";" u5 then _ else _) as [p' pa].
  cbn [bind Urllib.scheme]. now intros [= <- _ _].
Qed.

End SchemeFacts.

(** The statement at a protocol-relative host. *)
Lemma normalize_url_protocol_relative_witness :
  normalize_url ip_address_lenient nfkc_never_rejects
    "//CDN.example.com/lib.js"
  = Ok ("https", "cdn.example.com", "/lib.js")
  /\ "https" = "https".
Proof.
  split; [reflexivity|].
  exact (normalize_url_protocol_relative ip_address_lenient
           nfkc_never_rejects "//CDN.example.com/lib.js"
           "https" "cdn.example.com" "/lib.js" eq_refl eq_refl).
Defined.

(** ** The path of a URL with a host *)

Lemma find_char_drop (c : ascii) (s : string) (k : nat) :
  find_char c s = Some k -> exists t, drop k s = String c t.
Proof.
  revert k. induction s as [|d s IH]; intros k; simpl; [discriminate|].
  destruct (d =? c)%char eqn:E.
  - intros [= <-]. apply Ascii.eqb_eq in E. subst d. now exists s.
  - destruct (find_char c s) as [k'|]; [|discriminate].
    intros [= <-]. simpl. now apply IH.
Qed.

Lemma rfind_char_drop (c : ascii) (s : string) (r : nat) :
  rfind_char c s = Some r -> exists t, drop r s = String c t.
Proof.
  revert r. induction s as [|d s IH]; intros r; simpl; [discriminate|].
  destruct (rfind_char c s) as [i|].
  - intros [= <-]. simpl. now apply IH.
  - destruct (d =? c)%char eqn:E; [|discriminate].
    intros [= <-]. apply Ascii.eqb_eq in E. subst d. now exists s.
Qed.

Lemma drop_add (a b : nat) (s : string) : drop (a + b) s = drop b (drop a s).
Proof.
  revert s. induction a as [|a IH]; intros s; [reflexivity|].
  destruct s as [|c s]; simpl; [now destruct b|apply IH].
Qed.

Lemma drop_length (s : string) : drop (String.length s) s = "".
Proof. induction s; simpl; auto. Qed.

(** What follows the network location is empty or starts with one of the
    three delimiters. *)
Lemma splitnetloc_snd_starts (url : string) (start : nat) :
  snd (Urllib._splitnetloc url start) = ""
  \/ exists c t,
       snd (Urllib._splitnetloc url start) = String c t
       /\ (c = "/"%char \/ c = "?"%char \/ c = "#"%char).
Proof.
  unfold Urllib._splitnetloc. cbn [snd].
  set (step := fun (delim : nat) (c : ascii) =>
                 match find_char_from c start url with
                 | Some wdelim => Nat.min delim wdelim
                 | None => delim
                 end).
  assert (Hinv : forall cs d,
             (forall c, In c cs ->
                        c = "/"%char \/ c = "?"%char \/ c = "#"%char) ->
             (drop d url = ""
              \/ exists c t, drop d url = String c t
                   /\ (c = "/"%char \/ c = "?"%char \/ c = "#"%char)) ->
             drop (fold_left step cs d) url = ""
             \/ exists c t, drop (fold_left step cs d) url = String c t
                  /\ (c = "/"%char \/ c = "?"%char \/ c = "#"%char)).
  { induction cs as [|c cs IH]; intros d Hcs Hd; [exact Hd|].
    cbn [fold_left]. apply IH; [intros; apply Hcs; now right|].
    unfold step, find_char_from.
    destruct (find_char c (drop start url)) as [k|] eqn:F; [|exact Hd].
    cbn [option_map].
    destruct (Nat.min_dec d (start + k)) as [-> | ->]; [exact Hd|].
    right. rewrite drop_add.
    destruct (find_char_drop _ _ _ F) as [t ->].
    exists c, t. split; [reflexivity|]. apply Hcs. now left. }
  apply Hinv.
  - intros c [<- | [<- | [<- | []]]]; tauto.
  - left. apply drop_length.
Qed.

Lemma split_once_keeps_head (c d : ascii) (s : string) :
  (d =? c)%char = false ->
  exists t, fst (split_once c (String d s)) = String d t.
Proof.
  intros E. unfold split_once. simpl. rewrite E.
  destruct (find_char c s) as [i|]; simpl; eauto.
Qed.

Lemma split_once_at_head (c : ascii) (s : string) :
  fst (split_once c (String c s)) = "".
Proof. unfold split_once. simpl. now rewrite Ascii.eqb_refl. Qed.

(** The path cut out of what follows the network location. *)
Lemma path_after_netloc (u : string) :
  (u = ""
   \/ exists c t, u = String c t
        /\ (c = "/"%char \/ c = "?"%char \/ c = "#"%char)) ->
  let u4 := fst (if contains "#" u then split_once "#" u
                 else (u, EmptyString)) in
  let u5 := fst (if contains "?" u4 then split_once "?" u4
                 else (u4, EmptyString)) in
  u5 = "" \/ exists t, u5 = String "/" t.
Proof.
  intros [-> | (c & t & -> & [-> | [-> | ->]])]; cbn zeta.
  - left. reflexivity.
  - right.
    destruct (split_once_keeps_head "#" "/" t eq_refl) as [t4 E4].
    assert (H4 : fst (if contains "#" (String "/" t)
                      then split_once "#" (String "/" t)
                      else (String "/" t, EmptyString)) = String "/" t4
                 \/ fst (if contains "#" (String "/" t)
                         then split_once "#" (String "/" t)
                         else (String "/" t, EmptyString)) = String "/" t)
      by (destruct (contains "#" (String "/" t)); auto).
    destruct H4 as [-> | ->].
    + destruct (split_once_keeps_head "?" "/" t4 eq_refl) as [t5 E5].
      destruct (contains "?" (String "/" t4)); cbn [fst]; eauto.
    + destruct (split_once_keeps_head "?" "/" t eq_refl) as [t5 E5].
      destruct (contains "?" (String "/" t)); cbn [fst]; eauto.
  - left.
    destruct (split_once_keeps_head "#" "?" t eq_refl) as [t4 E4].
    assert (H4 : exists t', fst (if contains "#" (String "?" t)
                                 then split_once "#" (String "?" t)
                                 else (String "?" t, EmptyString))
                            = String "?" t')
      by (destruct (contains "#" (String "?" t)); cbn [fst]; eauto).
    destruct H4 as [t' ->].
    rewrite contains_startswith by reflexivity.
    apply split_once_at_head.
  - left. rewrite (contains_startswith "#" (String "#" t)) by reflexivity.
    rewrite split_once_at_head. reflexivity.
Qed.

Lemma splitparams_keeps_slash (t : string) :
  exists t', fst (Urllib._splitparams (String "/" t)) = String "/" t'.
Proof.
  unfold Urllib._splitparams.
  rewrite contains_startswith by reflexivity.
  destruct (rfind_char "/" (String "/" t)) as [r|] eqn:R.
  - unfold find_char_from.
    destruct (rfind_char_drop _ _ _ R) as [t0 E0]. rewrite E0.
    simpl find_char. change ("/" =? ";")%char with false. cbn iota.
    destruct (find_char ";" t0) as [k|]; cbn [option_map fst]; [|eauto].
    replace (r + S k) with (S (r + k)) by lia. simpl. eauto.
  - simpl in R. destruct (rfind_char "/" t); discriminate.
Qed.

Section PathFacts.

Variable ip_address : string -> option Urllib.ip_version.
Variable nfkc_rejects : string -> bool.

(** The path beside a host, for the lemmas on the records. *)
Lemma normalize_result_path (url scheme host path : string) :
  normalize_url ip_address nfkc_rejects url = Ok (scheme, host, path) ->
  host <> "" ->
  startswith "/" path = true.
Proof.
  unfold normalize_url, Urllib.urlparse, Urllib.urlsplit.
  set (u := if startswith "//" url then _ else _).
  set (u1 := remove_char Urllib.LF _).
  set (sch := match find_char ":" u1, u1 with
              | Some i, String c0 _ => _
              | _, _ => _
              end).
  destruct sch as [sc u2].
  destruct (take 2 u2 =? "//").
  - pose proof (splitnetloc_snd_starts u2 2) as Hsnd.
    destruct (Urllib._splitnetloc u2 2) as [nl u3]. cbn [snd] in Hsnd.
    apply path_after_netloc in Hsnd. cbn zeta in Hsnd.
    destruct ((contains "[" nl && negb (contains "]" nl))
              || (contains "]" nl && negb (contains "[" nl)));
      [discriminate|].
    destruct (if contains "[" nl && contains "]" nl
              then Urllib._check_bracketed_netloc ip_address nl
              else Ok tt) as [[]|]; [|discriminate].
    cbn [bind].
    destruct (if contains "#" u3 then _ else _) as [u4 fr]. cbn [fst] in Hsnd.
    destruct (if contains "?" u4 then _ else _) as [u5 qu]. cbn [fst] in Hsnd.
    destruct (Urllib._checknetloc nfkc_rejects nl) as [[]|]; [|discriminate].
    cbn [bind].
    destruct Hsnd as [-> | [t ->]].
    + replace (contains ";" "") with false by reflexivity.
      rewrite andb_false_r.
      cbn [bind Urllib.scheme Urllib.netloc Urllib.path is_empty].
      now intros [= <- <- <-] _.
    + destruct (splitparams_keeps_slash t) as [t' E].
      destruct (existsb (String.eqb sc) Urllib.uses_params
                && contains ";" (String "/" t)).
      * destruct (Urllib._splitparams (String "/" t)) as [p' pa].
        cbn [fst] in E. subst p'.
        cbn [bind Urllib.scheme Urllib.netloc Urllib.path is_empty].
        now intros [= <- <- <-] _.
      * cbn [bind Urllib.scheme Urllib.netloc Urllib.path is_empty].
        now intros [= <- <- <-] _.
  - cbn [bind].
    destruct (if contains "#" u2 then _ else _) as [u4 fr].
    destruct (if contains "?" u4 then _ else _) as [u5 qu].
    cbn [bind Urllib._checknetloc is_empty orb].
    destruct (if existsb (String.eqb sc) Urllib.uses_params
                 && contains ";" u5 then _ else _) as [p' pa].
    cbn [bind Urllib.scheme Urllib.netloc Urllib.path is_empty lower].
    intros [= <- <- <-] Hh. now contradiction Hh.
Qed.

(** When the normaliser returns a host, the path it returns is absolute. *)
Theorem normalize_url_absolute_path (url scheme host path : string) :
  normalize_url ip_address nfkc_rejects url = Ok (scheme, host, path) ->
  host <> "" ->
  startswith "/" path = true.
Proof. exact (normalize_result_path url scheme host path). Qed.

End PathFacts.

(** The statement at a URL whose host is followed by a query only. *)
Lemma normalize_url_absolute_path_witness :
  normalize_url ip_address_lenient nfkc_never_rejects
    "https://example.com?x=1"
  = Ok ("https", "example.com", "/")
  /\ startswith "/" "/" = true.
Proof.
  split; [reflexivity|].
  apply (normalize_url_absolute_path ip_address_lenient nfkc_never_rejects
           "https://example.com?x=1" "https" "example.com" "/" eq_refl).
  discriminate.
Defined.

(** ** Party classifier *)




Lemma is_empty_lower (s : string) : is_empty (lower s) = is_empty s.
Proof. now destruct s. Qed.







(** The answer does not depend on the case of the host or of the primary
    domain, nor on a dot put before a non-empty primary domain. *)
Theorem is_first_party_insensitive (host primary_domain : string) :
  primary_domain <> "" ->
  is_first_party (lower host) (lower primary_domain)
  = is_first_party host primary_domain
  /\ is_first_party host ("." ++ primary_domain)
     = is_first_party host primary_domain.
Proof.
  intros Hne. unfold is_first_party. split.
  - now rewrite !is_empty_lower, !lower_idem.
  - destruct primary_domain as [|c d]; [congruence|].
    cbn [append is_empty]. rewrite !orb_false_r.
    destruct (is_empty host); [reflexivity|].
    unfold lstrip_chars. cbn [lower lstrip_by].
    replace (in_chars "." (lower_char ".")) with true by reflexivity.
    reflexivity.
Qed.

(** The statement at a cookie-style domain in upper case. *)
Lemma is_first_party_insensitive_witness :
  is_first_party (lower "CDN.Example.com") (lower "EXAMPLE.COM")
  = is_first_party "CDN.Example.com" "EXAMPLE.COM"
  /\ is_first_party "CDN.Example.com" ("." ++ "EXAMPLE.COM")
     = is_first_party "CDN.Example.com" "EXAMPLE.COM".
Proof.
  apply (is_first_party_insensitive "CDN.Example.com" "EXAMPLE.COM").
  discriminate.
Defined.

(** ** Category classifier *)

Lemma rule_pairs_wellformed (cat pattern : string) :
  In (cat, pattern) (rule_pairs CATEGORY_RULES) ->
  cat <> "generic" /\ pattern <> "".
Proof.
  assert (H : forallb (fun r => negb (fst r =? "generic")
                                && negb (is_empty (snd r)))
                (rule_pairs CATEGORY_RULES) = true) by reflexivity.
  rewrite forallb_forall in H. intros Hin. apply H in Hin.
  cbn [fst snd] in Hin. apply andb_true_iff in Hin as [Hc Hp].
  apply negb_true_iff in Hc, Hp. split.
  - now apply String.eqb_neq.
  - now apply is_empty_false.
Qed.

Lemma rule_pairs_in (rules : list (string * list string))
  (cat pattern : string) (before after : list (string * string)) :
  rule_pairs rules = (before ++ (cat, pattern) :: after)%list ->
  In (cat, pattern) (rule_pairs rules).
Proof. intros ->. apply in_or_app. right. now left. Qed.

(** How category, subcategory and notes go together, for the lemmas on the
    records. *)
Lemma classify_result_facts (host path : string) :
  let category := fst (fst (classify_script host path)) in
  let subcategory := snd (fst (classify_script host path)) in
  let notes := snd (classify_script host path) in
  (category = "generic" <-> subcategory = "")
  /\ (category <> "generic" ->
      In (category, subcategory) (rule_pairs CATEGORY_RULES)
      /\ occurs subcategory (lower host ++ lower path)
      /\ notes = []%list).
Proof.
  unfold classify_script.
  destruct (first_rule (lower host ++ lower path) CATEGORY_RULES)
    as [[cat pattern]|] eqn:E; cbn [fst snd].
  - destruct (first_rule_some _ _ _ _ E) as (b & a & Eq & Hin & _).
    pose proof (rule_pairs_in _ _ _ _ _ Eq) as Hmem.
    destruct (rule_pairs_wellformed _ _ Hmem) as [Hc Hp].
    split; [split; intros; congruence|].
    intros _. split; [assumption|]. split; [|reflexivity].
    apply occurs_iff. now rewrite <- (rule_patterns_lower _ _ Hmem).
  - split; [tauto|]. congruence.
Qed.

(** The three results go together: the subcategory is empty exactly for the
    generic category; a category other than generic comes with one of its own
    patterns, which occurs in the searched text, and with no notes. *)
Theorem classify_script_shape (host path : string) :
  let category := fst (fst (classify_script host path)) in
  let subcategory := snd (fst (classify_script host path)) in
  let notes := snd (classify_script host path) in
  (category = "generic" <-> subcategory = "")
  /\ (category <> "generic" ->
      In (category, subcategory) (rule_pairs CATEGORY_RULES)
      /\ occurs subcategory (lower host ++ lower path)
      /\ notes = []%list).
Proof. exact (classify_result_facts host path). Qed.

Lemma contains_tracker_track (s : string) :
  contains "tracker" s = true -> contains "track" s = true.
Proof.
  rewrite !contains_spec. intros (a & b & ->).
  now exists a, ("er" ++ b).
Qed.

(** Each heuristic note is present exactly when no pattern of the table
    matched and its substring occurs; for the tracking note the test for
    [tracker] adds nothing to the test for [track]. *)
Theorem classify_script_notes (host path : string) :
  let combined := lower host ++ lower path in
  let category := fst (fst (classify_script host path)) in
  let notes := snd (classify_script host path) in
  (In NoteWidget notes <->
   category = "generic" /\ occurs "widget" combined)
  /\ (In NoteTracking notes <->
      category = "generic" /\ occurs "track" combined)
  /\ (In NoteBundle notes <->
      category = "generic"
      /\ (occurs "bundle" combined \/ occurs "vendor" combined))
  /\ ~ In NoteNoHost notes.
Proof.
  unfold classify_script.
  destruct (first_rule (lower host ++ lower path) CATEGORY_RULES)
    as [[cat pattern]|] eqn:E; cbn [fst snd].
  - destruct (first_rule_some _ _ _ _ E) as (b & a & Eq & _ & _).
    destruct (rule_pairs_wellformed _ _ (rule_pairs_in _ _ _ _ _ Eq))
      as [Hc _].
    cbn [In]. tauto.
  - rewrite <- !occurs_iff.
    pose proof (contains_tracker_track (lower host ++ lower path)) as Ht.
    destruct (contains "widget" (lower host ++ lower path)),
      (contains "tracker" (lower host ++ lower path)),
      (contains "track" (lower host ++ lower path)),
      (contains "bundle" (lower host ++ lower path)),
      (contains "vendor" (lower host ++ lower path));
      cbn [orb app In];
      try (specialize (Ht eq_refl); discriminate);
      repeat split; intros; try tauto; try discriminate;
      intuition (try discriminate; try congruence).
Qed.

(** ** Orchestrator *)

Section RunFacts.

Variable ip_address : string -> option Urllib.ip_version.
Variable nfkc_rejects : string -> bool.
Variable primary_domain : string.

Abbreviation run_loop :=
  (process_loop ip_address nfkc_rejects primary_domain).

Lemma process_loop_acc (lines : list string) :
  forall entries,
    run_loop lines entries
    = new <- run_loop lines []%list ;; Ok (entries ++ new)%list.
Proof.
  induction lines as [|line rest IH]; intros entries.
  - cbn. now rewrite app_nil_r.
  - rewrite !process_loop_cons.
    destruct (selected line); [|apply IH].
    destruct (extract_url_from_line line) as [url|]; [|apply IH].
    destruct (normalize_url ip_address nfkc_rejects url)
      as [[[scheme host] path]|e]; [|reflexivity].
    cbn [bind app]. rewrite IH.
    rewrite (IH [_]%list).
    destruct (run_loop rest []%list) as [new|e]; [|reflexivity].
    cbn [bind]. now rewrite <- app_assoc.
Qed.

Lemma process_loop_app (a b : list string) :
  forall entries,
    run_loop (a ++ b)%list entries
    = xs <- run_loop a entries ;; run_loop b xs.
Proof.
  induction a as [|line rest IH]; intros entries; [reflexivity|].
  cbn [app]. rewrite !process_loop_cons.
  destruct (selected line); [|apply IH].
  destruct (extract_url_from_line line) as [url|]; [|apply IH].
  destruct (normalize_url ip_address nfkc_rejects url)
    as [[[scheme host] path]|e]; [|reflexivity].
  cbn [bind]. apply IH.
Qed.

(** Processing an input in two parts and joining the results is the same
    as processing it at once; if the first part raises, so does the whole. *)
Theorem process_scripts_app (a b : list string) :
  process_scripts ip_address nfkc_rejects (a ++ b)%list primary_domain
  = xs <- process_scripts ip_address nfkc_rejects a primary_domain ;;
    ys <- process_scripts ip_address nfkc_rejects b primary_domain ;;
    Ok (xs ++ ys)%list.
Proof.
  unfold process_scripts, read_input_lines.
  rewrite map_app, process_loop_app.
  destruct (run_loop _ []%list) as [xs|e]; [|reflexivity].
  cbn [bind]. apply process_loop_acc.
Qed.

(** Only the selected lines matter: blank lines, comment lines and lines
    without a URL can be removed from the input without changing the
    result, raised exceptions included. *)
Theorem process_scripts_filter_selected (file_lines : list string) :
  process_scripts ip_address nfkc_rejects (filter selected file_lines)
    primary_domain
  = process_scripts ip_address nfkc_rejects file_lines primary_domain.
Proof.
  unfold process_scripts, read_input_lines.
  generalize (@nil ScriptEntry).
  induction file_lines as [|line rest IH]; intros entries; [reflexivity|].
  cbn [filter map].
  destruct (selected line) eqn:Hsel; cbn [map];
    rewrite !process_loop_cons, selected_read_line, Hsel.
  - destruct (extract_url_from_line _) as [url|]; [|apply IH].
    destruct (normalize_url ip_address nfkc_rejects url)
      as [[[scheme host] path]|e]; [|reflexivity].
    cbn [bind]. apply IH.
  - rewrite <- IH. reflexivity.
Qed.

(** The fields of every record of a completed run: the raw line is trimmed,
    not blank and not a comment; the URL is trimmed, not empty and a piece of
    the raw line; scheme and host are in lower case and the host holds no
    slash; the path is not empty, and absolute when there is a host; the
    party flag is the answer of the party classifier for the host; the
    subcategory is empty exactly for the generic category. *)
Theorem record_fields (file_lines : list string)
  (entries : list ScriptEntry) (e : ScriptEntry) :
  process_scripts ip_address nfkc_rejects file_lines primary_domain
  = Ok entries ->
  In e entries ->
  strip (raw e) = raw e
  /\ is_skipped (raw e) = false
  /\ url e <> "" /\ strip (url e) = url e /\ occurs (url e) (raw e)
  /\ lower (scheme e) = scheme e
  /\ lower (host e) = host e /\ contains "/" (host e) = false
  /\ path e <> ""
  /\ (host e <> "" -> startswith "/" (path e) = true)
  /\ first_party e = is_first_party (host e) primary_domain
  /\ (category e = "generic" <-> subcategory e = "").
Proof.
  intros Hrun Hin. apply process_scripts_inv in Hrun.
  destruct (Forall2_in_right _ _ _ _ _ _ Hrun Hin)
    as (line & Hline & u & s & h & p & Hext & Hn & ->).
  apply filter_In in Hline as [_ Hsel].
  unfold selected in Hsel. rewrite Hext in Hsel.
  apply andb_true_iff in Hsel as [Hskip Hu].
  apply negb_true_iff in Hskip, Hu.
  rewrite <- extract_url_strip in Hext.
  destruct (extract_result_facts _ _ Hext) as [Hst Hocc].
  destruct (normalize_result_facts _ _ _ _ _ _ Hn)
    as (Hs & Hh & Hslash & _ & _ & Hp & _).
  pose proof (normalize_result_path _ _ _ _ _ _ Hn) as Habs.
  destruct (classify_result_facts h p) as [Hgen _].
  unfold entry_from.
  cbn [raw url scheme host path category subcategory first_party].
  split; [apply strip_idem|]. split; [assumption|].
  split; [now apply is_empty_false|].
  repeat (split; [assumption|]). split; [reflexivity|]. exact Hgen.
Qed.

End RunFacts.

(** The statement at the documented end-to-end input and its second
    record. *)
Lemma record_fields_witness :
  strip example_tag_line = example_tag_line
  /\ occurs "https://cdn.jsdelivr.net/lib.js" example_tag_line.
Proof.
  destruct (record_fields ip_address_lenient nfkc_never_rejects
              "example.com" example_lines
              [ mkScriptEntry
                  "https://www.google-analytics.com/ga.js"
                  "https://www.google-analytics.com/ga.js"
                  "https" "www.google-analytics.com" "/ga.js"
                  "analytics" "google-analytics.com" false [];
                mkScriptEntry
                  example_tag_line
                  "https://cdn.jsdelivr.net/lib.js"
                  "https" "cdn.jsdelivr.net" "/lib.js"
                  "cdn/library" "cdn." false [] ]%list
              (mkScriptEntry
                 example_tag_line
                 "https://cdn.jsdelivr.net/lib.js"
                 "https" "cdn.jsdelivr.net" "/lib.js"
                 "cdn/library" "cdn." false [])
              eq_refl (or_intror (or_introl eq_refl)))
    as (H1 & _ & _ & _ & H2 & _).
  split; assumption.
Defined.

(** ** Output paths of [main] *)

Lemma rstrip_by_all (p : ascii -> bool) (t : string) :
  all_chars p t = true -> rstrip_by p t = "".
Proof.
  induction t as [|c t IH]; simpl; [reflexivity|].
  intros H. apply andb_true_iff in H as [Hc H]. now rewrite (IH H), Hc.
Qed.

Lemma rstrip_by_app_all (p : ascii -> bool) (s t : string) :
  all_chars p t = true -> rstrip_by p (s ++ t) = rstrip_by p s.
Proof.
  intros H. induction s as [|c s IH]; simpl.
  - now apply rstrip_by_all.
  - now rewrite IH.
Qed.

(** Output prefixes that differ only by trailing dots and letters [m] and
    [d] give the same base name, so [main] writes the same two files with
    the same contents for them. *)
Theorem main_prefix_collision
  (ip_address : string -> option Urllib.ip_version)
  (nfkc_rejects : string -> bool) (file_lines : list string)
  (primary_domain output_prefix tail : string) :
  all_chars (in_chars ".md") tail = true ->
  output_base (output_prefix ++ tail) = output_base output_prefix
  /\ main ip_address nfkc_rejects file_lines primary_domain
       (output_prefix ++ tail)
     = main ip_address nfkc_rejects file_lines primary_domain output_prefix.
Proof.
  intros H.
  assert (E : output_base (output_prefix ++ tail) = output_base output_prefix)
    by now apply rstrip_by_app_all.
  split; [exact E|]. unfold main. now rewrite E.
Qed.

(** The statement at the prefixes [report.md] and [report]. *)
Lemma main_prefix_collision_witness :
  output_base "report.md" = output_base "report"
  /\ main ip_address_lenient nfkc_never_rejects example_lines "example.com"
       "report.md"
     = main ip_address_lenient nfkc_never_rejects example_lines "example.com"
         "report".
Proof.
  exact (main_prefix_collision ip_address_lenient nfkc_never_rejects
           example_lines "example.com" "report" ".md" eq_refl).
Defined.

(** ** Pipe escaping of the inventory table *)

Lemma append_cons_inv (a : string) (c : ascii) (b s : string) :
  String c s = a ++ b ->
  (a = "" /\ b = String c s) \/ exists a', a = String c a' /\ s = a' ++ b.
Proof.
  destruct a as [|x a]; simpl.
  - intros <-. now left.
  - intros [= -> ->]. right. now exists a.
Qed.

(** In an escaped field every pipe is directly preceded by a backslash, and
    a field without pipes is left as it is. *)
Theorem escape_pipes_spec (s : string) :
  (forall before after,
      escape_pipes s = before ++ String "|" after ->
      exists before', before = before' ++ "\")
  /\ (contains "|" s = false -> escape_pipes s = s).
Proof.
  unfold escape_pipes. split.
  - induction s as [|d s IH]; intros before after; cbn [replace_char].
    + destruct before; discriminate.
    + destruct (d =? "|")%char eqn:E.
      * cbn [append]. intros H.
        apply append_cons_inv in H as [[_ H] | (b1 & -> & H)];
          [discriminate|].
        apply append_cons_inv in H as [[-> _] | (b2 & -> & H)].
        -- now exists "".
        -- destruct (IH _ _ H) as [b' ->].
           now exists (String "\" (String "|" b')).
      * intros H.
        apply append_cons_inv in H as [[_ H] | (b1 & -> & H)].
        -- injection H as Hd _. subst d.
           rewrite Ascii.eqb_refl in E. discriminate.
        -- destruct (IH _ _ H) as [b' ->]. now exists (String d b').
  - intros H. apply contains_char_false in H. unfold is_not in H.
    induction s as [|d s IH]; cbn [replace_char]; [reflexivity|].
    simpl in H. apply andb_true_iff in H as [Hd H].
    apply negb_true_iff in Hd. rewrite Hd. now rewrite IH.
Qed.

(** ** Counting and ordering in the summary *)

Lemma counter_add_keys (key k : string) (counts : list (string * nat)) :
  In k (map fst (counter_add key counts))
  <-> k = key \/ In k (map fst counts).
Proof.
  induction counts as [|[k0 n] rest IH]; simpl.
  - intuition.
  - destruct (k0 =? key) eqn:E; simpl.
    + apply String.eqb_eq in E. subst k0. intuition.
    + rewrite IH. intuition.
Qed.

Lemma counter_add_nodup (key : string) (counts : list (string * nat)) :
  NoDup (map fst counts) -> NoDup (map fst (counter_add key counts)).
Proof.
  induction counts as [|[k0 n] rest IH]; simpl; intros H.
  - constructor; [intros []|constructor].
  - destruct (k0 =? key) eqn:E; simpl; [assumption|].
    inversion H as [|? ? Hnotin Hrest]; subst.
    constructor; [|auto].
    rewrite counter_add_keys. intros [-> | Hin]; [|contradiction].
    now rewrite String.eqb_refl in E.
Qed.

Lemma counter_add_sum (key : string) (counts : list (string * nat)) :
  list_sum (map snd (counter_add key counts))
  = S (list_sum (map snd counts)).
Proof.
  induction counts as [|[k0 n] rest IH]; simpl; [reflexivity|].
  destruct (k0 =? key); simpl; [reflexivity|]. rewrite IH. lia.
Qed.

Lemma Counter_fold_facts (keys : list string) :
  forall counts,
    NoDup (map fst counts) ->
    let result :=
      fold_left (fun counts key => counter_add key counts) keys counts in
    NoDup (map fst result)
    /\ (forall k, In k (map fst result)
                  <-> In k keys \/ In k (map fst counts))
    /\ list_sum (map snd result)
       = list_sum (map snd counts) + List.length keys.
Proof.
  induction keys as [|key rest IH]; intros counts Hnd; cbn [fold_left].
  - cbn zeta. split; [assumption|]. split; [intros k; simpl; tauto|].
    simpl. lia.
  - destruct (IH (counter_add key counts) (counter_add_nodup _ _ Hnd))
      as (H1 & H2 & H3).
    cbn zeta in *. split; [assumption|]. split.
    + intros k. rewrite H2, counter_add_keys. simpl. intuition.
    + rewrite H3, counter_add_sum. simpl. lia.
Qed.

Lemma counter_get_in (counts : list (string * nat)) (k : string) (n : nat) :
  NoDup (map fst counts) -> In (k, n) counts -> counter_get counts k = n.
Proof.
  induction counts as [|[k0 n0] rest IH]; simpl; [intros _ []|].
  intros Hnd [[= -> ->] | Hin].
  - now rewrite String.eqb_refl.
  - inversion Hnd as [|? ? Hnotin Hrest]; subst.
    destruct (k0 =? k) eqn:E; [|auto].
    apply String.eqb_eq in E. subst k0.
    contradiction Hnotin. now apply (in_map fst) in Hin.
Qed.

(** The items of a [Counter]: one per distinct key, each with the number of
    occurrences of the key. *)
Lemma Counter_items (keys : list string) :
  NoDup (map fst (Counter keys))
  /\ (forall k n,
         In (k, n) (Counter keys)
         <-> n = count_occ string_dec keys k /\ 1 <= n)
  /\ list_sum (map snd (Counter keys)) = List.length keys.
Proof.
  destruct (Counter_fold_facts keys []%list (NoDup_nil _))
    as (Hnd & Hkeys & Hsum).
  cbn zeta in *. fold (Counter keys) in *.
  split; [assumption|]. split; [|exact Hsum].
  intros k n. split.
  - intros Hin. pose proof (counter_get_in _ _ _ Hnd Hin) as Hget.
    rewrite counter_get_Counter in Hget. split; [now symmetry|].
    apply (in_map fst) in Hin. apply Hkeys in Hin as [Hin | []].
    rewrite <- Hget. now apply (count_occ_In string_dec).
  - intros [-> Hpos].
    assert (Hin : In k (map fst (Counter keys))).
    { apply Hkeys. left. now apply (count_occ_In string_dec). }
    apply in_map_iff in Hin as ([k' n'] & E & Hin). cbn [fst] in E. subst k'.
    pose proof (counter_get_in _ _ _ Hnd Hin) as Hget.
    rewrite counter_get_Counter in Hget. now rewrite Hget.
Qed.

Lemma insert_item_perm (x : string * nat) (l : list (string * nat)) :
  Permutation (x :: l) (insert_item x l).
Proof.
  induction l as [|y l IH]; simpl; [reflexivity|].
  destruct (key_ltb x y); [reflexivity|].
  rewrite perm_swap. now constructor.
Qed.

Lemma sorted_items_perm (items : list (string * nat)) :
  Permutation items (sorted_items items).
Proof.
  unfold sorted_items.
  assert (H : forall acc,
             Permutation (items ++ acc)
               (fold_left (fun acc x => insert_item x acc) items acc)).
  { induction items as [|x items IH]; intros acc; cbn [fold_left app];
      [reflexivity|].
    rewrite <- IH. rewrite <- insert_item_perm.
    apply Permutation_middle. }
  specialize (H []%list). now rewrite app_nil_r in H.
Qed.

Lemma compare_lt_trans (a b c : string) :
  String.compare a b = Lt -> String.compare b c = Lt ->
  String.compare a c = Lt.
Proof.
  revert b c. induction a as [|x a IH]; intros [|y b] [|z c]; simpl;
    try discriminate; auto.
  unfold Ascii.compare.
  destruct (N.compare_spec (N_of_ascii x) (N_of_ascii y)) as [E1|L1|G1];
    try discriminate;
    destruct (N.compare_spec (N_of_ascii y) (N_of_ascii z)) as [E2|L2|G2];
    try discriminate; intros H1 H2.
  - rewrite E1, E2, N.compare_refl. eauto.
  - rewrite E1. now apply N.compare_lt_iff in L2 as ->.
  - rewrite <- E2. now apply N.compare_lt_iff in L1 as ->.
  - assert (L : (N_of_ascii x < N_of_ascii z)%N) by lia.
    now apply N.compare_lt_iff in L as ->.
Qed.

Lemma ltb_trans (a b c : string) :
  String.ltb a b = true -> String.ltb b c = true -> String.ltb a c = true.
Proof.
  unfold String.ltb.
  destruct (String.compare a b) eqn:E1; try discriminate.
  destruct (String.compare b c) eqn:E2; try discriminate.
  now rewrite (compare_lt_trans _ _ _ E1 E2).
Qed.

Lemma ltb_asym (a b : string) :
  String.ltb a b = true -> String.ltb b a = false.
Proof.
  unfold String.ltb. rewrite (String.compare_antisym b a).
  now destruct (String.compare a b).
Qed.

Lemma ltb_total (a b : string) :
  a <> b -> String.ltb b a = false -> String.ltb a b = true.
Proof.
  unfold String.ltb. rewrite (String.compare_antisym b a).
  destruct (String.compare a b) eqn:E; simpl; try congruence.
  apply String.compare_eq_iff in E. congruence.
Qed.

Lemma key_ltb_iff (a b : string * nat) : key_ltb a b = true <-> row_before a b.
Proof.
  unfold key_ltb, row_before.
  rewrite orb_true_iff, andb_true_iff, Nat.ltb_lt, Nat.eqb_eq. reflexivity.
Qed.

Lemma row_before_trans (a b c : string * nat) :
  row_before a b -> row_before b c -> row_before a c.
Proof.
  unfold row_before. intros [H1 | [E1 L1]] [H2 | [E2 L2]].
  - left. lia.
  - left. lia.
  - left. lia.
  - right. split; [congruence|]. eapply ltb_trans; eauto.
Qed.

Lemma key_ltb_asym (a b : string * nat) :
  key_ltb a b = true -> key_ltb b a = false.
Proof.
  intros H. apply key_ltb_iff in H.
  destruct (key_ltb b a) eqn:E; [|reflexivity].
  apply key_ltb_iff in E. unfold row_before in *.
  destruct H as [H | [H1 H2]], E as [E | [E1 E2]]; try lia.
  apply ltb_asym in H2. congruence.
Qed.

Lemma key_ltb_total (a b : string * nat) :
  fst a <> fst b -> key_ltb b a = false -> row_before a b.
Proof.
  intros Hne H. unfold row_before.
  destruct (Nat.lt_trichotomy (snd a) (snd b)) as [L | [E | G]].
  - exfalso. assert (K : key_ltb b a = true)
      by (apply key_ltb_iff; left; exact L).
    congruence.
  - right. split; [assumption|]. apply ltb_total; [assumption|].
    destruct (String.ltb (fst b) (fst a)) eqn:L; [|reflexivity].
    assert (K : key_ltb b a = true)
      by (apply key_ltb_iff; right; split; [now symmetry|assumption]).
    congruence.
  - now left.
Qed.

Lemma insert_item_sorted (x : string * nat) (l : list (string * nat)) :
  Sorted (fun a b => key_ltb b a = false) l ->
  Sorted (fun a b => key_ltb b a = false) (insert_item x l).
Proof.
  induction l as [|y l IH]; simpl; intros H.
  - repeat constructor.
  - inversion H as [|? ? Hs Hh]; subst.
    destruct (key_ltb x y) eqn:E.
    + constructor; [assumption|]. constructor. now apply key_ltb_asym.
    + constructor; [auto|].
      destruct l as [|z l]; simpl.
      * now constructor.
      * destruct (key_ltb x z); constructor; [assumption|].
        now inversion Hh.
Qed.

Lemma sorted_items_sorted (items : list (string * nat)) :
  Sorted (fun a b => key_ltb b a = false) (sorted_items items).
Proof.
  unfold sorted_items.
  assert (H : forall acc,
             Sorted (fun a b => key_ltb b a = false) acc ->
             Sorted (fun a b => key_ltb b a = false)
               (fold_left (fun acc x => insert_item x acc) items acc)).
  { induction items as [|x items IH]; intros acc Hacc; cbn [fold_left];
      [assumption|].
    now apply IH, insert_item_sorted. }
  apply H. constructor.
Qed.

Lemma sorted_distinct_strict (l : list (string * nat)) :
  NoDup (map fst l) ->
  Sorted (fun a b => key_ltb b a = false) l ->
  StronglySorted row_before l.
Proof.
  intros Hnd Hs. apply Sorted_StronglySorted.
  - intros a b c. apply row_before_trans.
  - induction Hs as [|a l Hs IH Hh]; [constructor|].
    simpl in Hnd. inversion Hnd as [|? ? Hnotin Hrest]; subst.
    constructor; [auto|].
    destruct Hh as [|b l Hab]; constructor.
    apply key_ltb_total; [|assumption].
    intros E. apply Hnotin. simpl. now left.
Qed.

(** Sorting the items of a table with distinct keys: the same items, each
    row before all the rows below it. *)
Lemma sorted_items_spec (items : list (string * nat)) :
  NoDup (map fst items) ->
  Permutation items (sorted_items items)
  /\ StronglySorted row_before (sorted_items items).
Proof.
  intros Hnd. pose proof (sorted_items_perm items) as Hp.
  split; [assumption|].
  apply sorted_distinct_strict; [|apply sorted_items_sorted].
  eapply Permutation_NoDup; [|exact Hnd].
  now apply Permutation_map.
Qed.

Lemma filter_partition_length (A : Type) (f : A -> bool) (l : list A) :
  List.length (filter f l) + List.length (filter (fun x => negb (f x)) l)
  = List.length l.
Proof.
  induction l as [|x l IH]; simpl; [reflexivity|].
  destruct (f x); simpl; lia.
Qed.

(** The category table of the summary: one row per category that occurs,
    with the number of records of that category; the rows are ordered by
    decreasing count and, for equal counts, by increasing name; the counts
    add up to the total, as do the first-party and third-party counts; the
    table is replaced by the placeholder exactly when there is no record. *)
Theorem summary_category_rows (entries : list ScriptEntry) :
  Permutation (cat_counts entries) (category_rows entries)
  /\ StronglySorted row_before (category_rows entries)
  /\ (forall cat n,
         In (cat, n) (category_rows entries)
         <-> n = count_occ string_dec (map category entries) cat /\ 1 <= n)
  /\ list_sum (map snd (category_rows entries)) = total entries
  /\ List.length (first_party_entries entries)
     + List.length (third_party_entries entries) = total entries
  /\ (cat_counts entries = []%list <-> entries = []%list).
Proof.
  unfold category_rows, cat_counts, total.
  destruct (Counter_items (map category entries)) as (Hnd & Hin & Hsum).
  destruct (sorted_items_spec _ Hnd) as [Hperm Hsorted].
  rewrite length_map in Hsum.
  split; [assumption|]. split; [assumption|]. split; [|split; [|split]].
  - intros cat n. rewrite <- Hin. split; apply Permutation_in.
    + now symmetry.
    + assumption.
  - rewrite <- Hsum. apply Permutation_list_sum, Permutation_map.
    now symmetry.
  - apply filter_partition_length.
  - split.
    + intros E. rewrite E in Hsum. simpl in Hsum.
      destruct entries; [reflexivity|discriminate].
    + now intros ->.
Qed.

Lemma count_occ_nonempty_hosts (l : list ScriptEntry) (d : string) :
  d <> "" ->
  count_occ string_dec
    (map host (filter (fun e => negb (is_empty (host e))) l)) d
  = count_occ string_dec (map host l) d.
Proof.
  intros Hd. induction l as [|e l IH]; [reflexivity|].
  cbn [filter]. destruct (host e) as [|c h] eqn:E;
    cbn [is_empty negb map]; rewrite ?E.
  - rewrite count_occ_cons_neq by congruence. exact IH.
  - destruct (string_dec (String c h) d) as [Heq | Hneq].
    + rewrite !count_occ_cons_eq by assumption. now rewrite IH.
    + rewrite !count_occ_cons_neq by assumption. exact IH.
Qed.

(** The domain table of the summary: at most twenty rows, the first rows
    of the third-party hosts ordered by decreasing count and increasing
    name; every row names a non-empty host with the number of third-party
    records of that host, so a first-party record is never counted. *)
Theorem summary_domain_rows (entries : list ScriptEntry) :
  List.length (domain_rows entries) <= 20
  /\ (exists rest,
         Permutation (tp_domains entries) (domain_rows entries ++ rest)
         /\ StronglySorted row_before (domain_rows entries ++ rest))
  /\ (forall d n,
         In (d, n) (domain_rows entries) ->
         d <> ""
         /\ n = count_occ string_dec
                  (map host (third_party_entries entries)) d
         /\ 1 <= n).
Proof.
  unfold domain_rows, tp_domains.
  set (keys := map host
                 (filter (fun e => negb (is_empty (host e)))
                    (third_party_entries entries))).
  destruct (Counter_items keys) as (Hnd & Hin & _).
  destruct (sorted_items_spec _ Hnd) as [Hperm Hsorted].
  split; [apply firstn_le_length|]. split.
  - exists (skipn 20 (sorted_items (Counter keys))).
    now rewrite firstn_skipn.
  - intros d n Hrow.
    assert (Hmem : In (d, n) (Counter keys)).
    { eapply Permutation_in; [symmetry; exact Hperm|].
      rewrite <- (firstn_skipn 20). apply in_or_app. now left. }
    apply Hin in Hmem as [-> Hpos].
    assert (Hd : d <> "").
    { apply (count_occ_In string_dec) in Hpos. unfold keys in Hpos.
      apply in_map_iff in Hpos as (e & <- & He).
      apply filter_In in He as [_ He]. apply negb_true_iff in He.
      now apply is_empty_false. }
    split; [assumption|]. split; [|assumption].
    now apply count_occ_nonempty_hosts.
Qed.

(** ** Normalising a plainly written URL *)

Lemma all_chars_impl (P Q : ascii -> bool) (s : string) :
  (forall c, P c = true -> Q c = true) ->
  all_chars P s = true -> all_chars Q s = true.
Proof.
  intros HPQ. induction s as [|c s IH]; simpl; [reflexivity|].
  intros H. apply andb_true_iff in H as [Hc H].
  now rewrite (HPQ _ Hc), IH.
Qed.

Lemma remove_char_absent (d : ascii) (s : string) :
  all_chars (is_not d) s = true -> remove_char d s = s.
Proof.
  unfold is_not. induction s as [|c s IH]; simpl; [reflexivity|].
  intros H. apply andb_true_iff in H as [Hc H].
  apply negb_true_iff in Hc. now rewrite Hc, IH.
Qed.

Lemma find_char_absent (c : ascii) (s : string) :
  all_chars (is_not c) s = true -> find_char c s = None.
Proof.
  unfold is_not. induction s as [|d s IH]; simpl; [reflexivity|].
  intros H. apply andb_true_iff in H as [Hd H].
  apply negb_true_iff in Hd. now rewrite Hd, IH.
Qed.

Lemma find_char_app (c : ascii) (a b : string) :
  all_chars (is_not c) a = true ->
  find_char c (a ++ String c b) = Some (String.length a).
Proof.
  unfold is_not. induction a as [|d a IH]; simpl.
  - now rewrite Ascii.eqb_refl.
  - intros H. apply andb_true_iff in H as [Hd H].
    apply negb_true_iff in Hd. now rewrite Hd, IH.
Qed.

Lemma take_append_length (a b : string) : take (String.length a) (a ++ b) = a.
Proof. induction a; simpl; [now destruct b|congruence]. Qed.

Lemma all_scheme_chars_all (s : string) :
  Urllib.all_scheme_chars s = all_chars Urllib.scheme_char s.
Proof. induction s; simpl; congruence. Qed.

Lemma scheme_char_plain (c d : ascii) :
  Urllib.scheme_char c = true ->
  d = ":"%char \/ d = "/"%char \/ d = Urllib.TAB \/ d = Urllib.CR
  \/ d = Urllib.LF ->
  is_not d c = true.
Proof.
  intros Hc [-> | [-> | [-> | [-> | ->]]]]; revert Hc;
    destruct c as [[] [] [] [] [] [] [] []]; vm_compute; congruence.
Qed.

Lemma scheme_char_not_c0 (c : ascii) :
  Urllib.scheme_char c = true -> Urllib.c0_control_or_space c = false.
Proof.
  destruct c as [[] [] [] [] [] [] [] []]; vm_compute; congruence.
Qed.

Lemma alpha_scheme_char (c : ascii) :
  ascii_alpha c = true -> Urllib.scheme_char c = true.
Proof. unfold Urllib.scheme_char. now intros ->. Qed.

Lemma host_char_plain (c d : ascii) :
  host_char c = true ->
  d = "/"%char \/ d = "?"%char \/ d = "#"%char \/ d = "["%char
  \/ d = "]"%char \/ d = Urllib.TAB \/ d = Urllib.CR \/ d = Urllib.LF ->
  is_not d c = true.
Proof.
  intros Hc [-> | [-> | [-> | [-> | [-> | [-> | [-> | ->]]]]]]]; revert Hc;
    destruct c as [[] [] [] [] [] [] [] []]; vm_compute; congruence.
Qed.

Lemma path_char_plain (c d : ascii) :
  path_char c = true ->
  d = "?"%char \/ d = "#"%char \/ d = ";"%char
  \/ d = Urllib.TAB \/ d = Urllib.CR \/ d = Urllib.LF ->
  is_not d c = true.
Proof.
  intros Hc [-> | [-> | [-> | [-> | [-> | ->]]]]]; revert Hc;
    destruct c as [[] [] [] [] [] [] [] []]; vm_compute; congruence.
Qed.

Section PlainUrl.

Variable ip_address : string -> option Urllib.ip_version.
Variable nfkc_rejects : string -> bool.

Lemma drop_S_append (a : string) (c : ascii) (b : string) :
  drop (S (String.length a)) (a ++ String c b) = b.
Proof. induction a; simpl; [now destruct b|assumption]. Qed.

Lemma urlsplit_plain (c0 : ascii) (s' h p : string) :
  ascii_alpha c0 = true ->
  all_chars Urllib.scheme_char s' = true ->
  all_chars host_char h = true ->
  all_chars path_char p = true ->
  Urllib.urlsplit ip_address nfkc_rejects
    (String c0 s' ++ "://" ++ h ++ "/" ++ p)
  = Ok (lower (String c0 s'), h, "/" ++ p, "", "").
Proof.
  intros Hc0 Hs' Hh Hp.
  pose proof (alpha_scheme_char _ Hc0) as Hc0s.
  set (sch := String c0 s').
  assert (Hsch : all_chars Urllib.scheme_char sch = true)
    by (unfold sch; simpl; now rewrite Hc0s).
  set (T := h ++ String "/" p).
  set (R := String "/" (String "/" T)).
  change (sch ++ "://" ++ h ++ "/" ++ p) with (sch ++ String ":" R).
  assert (HsN : forall d,
             d = ":"%char \/ d = "/"%char \/ d = Urllib.TAB \/ d = Urllib.CR
             \/ d = Urllib.LF -> all_chars (is_not d) sch = true).
  { intros d Hd. eapply all_chars_impl; [|exact Hsch].
    intros c Hc. now apply scheme_char_plain. }
  assert (HhN : forall d,
             d = "/"%char \/ d = "?"%char \/ d = "#"%char \/ d = "["%char
             \/ d = "]"%char \/ d = Urllib.TAB \/ d = Urllib.CR
             \/ d = Urllib.LF -> all_chars (is_not d) h = true).
  { intros d Hd. eapply all_chars_impl; [|exact Hh].
    intros c Hc. now apply host_char_plain. }
  assert (HpN : forall d,
             d = "?"%char \/ d = "#"%char \/ d = ";"%char
             \/ d = Urllib.TAB \/ d = Urllib.CR \/ d = Urllib.LF ->
             all_chars (is_not d) p = true).
  { intros d Hd. eapply all_chars_impl; [|exact Hp].
    intros c Hc. now apply path_char_plain. }
  assert (HU : forall d,
             d = Urllib.TAB \/ d = Urllib.CR \/ d = Urllib.LF ->
             all_chars (is_not d) (sch ++ String ":" R) = true).
  { intros d Hd. unfold R, T.
    rewrite all_chars_append. cbn [all_chars].
    rewrite all_chars_append. cbn [all_chars].
    rewrite HsN, HhN, HpN by tauto.
    destruct Hd as [-> | [-> | ->]]; reflexivity. }
  unfold Urllib.urlsplit.
  assert (E1 : lstrip_by Urllib.c0_control_or_space (sch ++ String ":" R)
               = sch ++ String ":" R).
  { unfold sch. cbn [append lstrip_by].
    now rewrite (scheme_char_not_c0 _ Hc0s). }
  rewrite E1.
  rewrite (remove_char_absent Urllib.TAB) by (apply HU; tauto).
  rewrite (remove_char_absent Urllib.CR) by (apply HU; tauto).
  rewrite (remove_char_absent Urllib.LF) by (apply HU; tauto).
  rewrite (find_char_app ":" sch R) by (apply HsN; tauto).
  rewrite take_append_length, drop_S_append, all_scheme_chars_all, Hsch.
  change (sch ++ String ":" R) with (String c0 (s' ++ String ":" R)).
  replace (0 <? String.length sch)%nat with true by reflexivity.
  rewrite Hc0. cbv beta iota. cbn [andb].
  replace (take 2 R =? "//") with true by reflexivity.
  assert (E3 : Urllib._splitnetloc R 2 = (h, String "/" p)).
  { unfold Urllib._splitnetloc, find_char_from, R.
    cbn [drop fold_left]. fold T.
    assert (HT : forall d, d = "?"%char \/ d = "#"%char ->
                   all_chars (is_not d) T = true).
    { intros d Hd. unfold T. rewrite all_chars_append. cbn [all_chars].
      rewrite HhN, HpN by tauto. destruct Hd as [-> | ->]; reflexivity. }
    assert (EF : find_char "/" T = Some (String.length h))
      by (unfold T; apply find_char_app, HhN; tauto).
    rewrite EF, !find_char_absent by (apply HT; tauto).
    cbn [option_map String.length].
    rewrite Nat.min_r
      by (unfold T; rewrite length_append; cbn [String.length]; lia).
    replace (2 + String.length h - 2) with (String.length h) by lia.
    cbn [Nat.add drop]. unfold T.
    now rewrite take_append_length, drop_append_length. }
  rewrite E3.
  assert (HL : contains "[" h = false)
    by (apply contains_char_false, HhN; tauto).
  assert (HR : contains "]" h = false)
    by (apply contains_char_false, HhN; tauto).
  rewrite HL, HR. cbn [andb orb negb bind].
  assert (Hf : contains "#" (String "/" p) = false).
  { apply contains_char_false. cbn [all_chars].
    now rewrite HpN by tauto. }
  assert (Hq : contains "?" (String "/" p) = false).
  { apply contains_char_false. cbn [all_chars].
    now rewrite HpN by tauto. }
  rewrite Hf, Hq.
  assert (Ha : isascii h = true).
  { rewrite isascii_all_chars. eapply all_chars_impl; [|exact Hh].
    intros c Hc. unfold host_char in Hc.
    now apply andb_true_iff in Hc as [Hc _];
      apply andb_true_iff in Hc as [Hc _]. }
  unfold Urllib._checknetloc. rewrite Ha, orb_true_r. reflexivity.
Qed.

(** A plainly written URL, made of a scheme, a host and an absolute path,
    is taken apart into exactly these three, the scheme and the host in
    lower case and the path as written. *)
Theorem normalize_url_plain (c0 : ascii) (s' h p : string) :
  ascii_alpha c0 = true ->
  all_chars Urllib.scheme_char s' = true ->
  all_chars host_char h = true ->
  all_chars path_char p = true ->
  normalize_url ip_address nfkc_rejects
    (String c0 s' ++ "://" ++ h ++ "/" ++ p)
  = Ok (lower (String c0 s'), lower h, "/" ++ p).
Proof.
  intros Hc0 Hs' Hh Hp. unfold normalize_url.
  assert (E : startswith "//" (String c0 s' ++ "://" ++ h ++ "/" ++ p)
              = false).
  { cbn [append startswith].
    pose proof (scheme_char_plain c0 "/" (alpha_scheme_char _ Hc0)) as H.
    unfold is_not in H. rewrite Ascii.eqb_sym.
    apply negb_true_iff in H; [|tauto]. now rewrite H. }
  rewrite E. unfold Urllib.urlparse.
  rewrite urlsplit_plain by assumption. cbn [bind].
  assert (Hsemi : contains ";" ("/" ++ p) = false).
  { apply contains_char_false. cbn [append all_chars].
    rewrite (all_chars_impl path_char (is_not ";") p); [reflexivity| |exact Hp].
    intros c Hc. apply path_char_plain; tauto. }
  rewrite Hsemi, andb_false_r.
  cbn [bind Urllib.scheme Urllib.netloc Urllib.path append is_empty].
  rewrite lower_idem. now destruct h.
Qed.

End PlainUrl.

(** The statement at a mixed-case URL. *)
Lemma normalize_url_plain_witness :
  normalize_url ip_address_lenient nfkc_never_rejects
    "HTTPS://CDN.Example.com/Lib/App.js"
  = Ok ("https", "cdn.example.com", "/Lib/App.js").
Proof.
  apply (normalize_url_plain ip_address_lenient nfkc_never_rejects
           "H"%char "TTPS" "CDN.Example.com" "Lib/App.js");
    reflexivity.
Defined.
